(** * pulsify / dAUXimity signalling server (server.js)

    A shallow embedding of the room store, the socket.io room adapter the
    handlers talk to, and the event handlers registered inside
    [io.on('connection', ...)], followed by the properties of the
    room-lifecycle specification that were checked against them. *)

From Stdlib Require Import NArith String Ascii List.
From stdpp Require Import gmap strings list pretty.

Local Open Scope string_scope.
Local Open Scope list_scope.
#[local] Set Warnings "-clear-no-such-hyp".

(** ** [Map]: the insertion-ordered JavaScript map

    [rooms] is a [Map] keyed by room id.  Iteration ([forEach], [values])
    follows insertion order, [set] on a present key replaces the value where
    it stands, and [delete] drops the entry. *)
Module JsMap.
Section Defs.
Context {V : Type}.

Fixpoint get (k : string) (m : list (string * V)) : option V :=
  match m with
  | [] => None
  | (k', v) :: m' => if decide (k = k') then Some v else get k m'
  end.

Fixpoint set (k : string) (v : V) (m : list (string * V)) : list (string * V) :=
  match m with
  | [] => [(k, v)]
  | (k', v') :: m' =>
      if decide (k = k') then (k, v) :: m' else (k', v') :: set k v m'
  end.

Fixpoint delete (k : string) (m : list (string * V)) : list (string * V) :=
  match m with
  | [] => []
  | (k', v') :: m' =>
      if decide (k = k') then delete k m' else (k', v') :: delete k m'
  end.

Definition keys (m : list (string * V)) : list string := m.*1.
Definition values (m : list (string * V)) : list V := m.*2.
End Defs.
End JsMap.

(** ** Room records *)
Module Room.
(** [{ id, name, hostId, listeners: Set<socketId>, createdAt, isDemo?, streamUrl? }];
    an absent [isDemo] is falsy, an absent [streamUrl] is [None]. *)
Record t := mk {
  id : string;
  name : string;
  streamUrl : option string;
  hostId : string;
  listeners : gset string;
  createdAt : N;
  status : string;
  isDemo : bool
}.

Definition with_listeners (l : gset string) (r : t) : t :=
  mk (id r) (name r) (streamUrl r) (hostId r) l (createdAt r) (status r) (isDemo r).
End Room.

(** [{ ...r, listenerCount: r.listeners.size, listeners: undefined }] *)
Record RoomInfo := mkInfo {
  info_id : string;
  info_name : string;
  info_streamUrl : option string;
  info_hostId : string;
  info_createdAt : N;
  info_status : string;
  info_isDemo : bool;
  listenerCount : nat
}.

Definition snapshot (r : Room.t) : RoomInfo :=
  mkInfo (Room.id r) (Room.name r) (Room.streamUrl r) (Room.hostId r)
         (Room.createdAt r) (Room.status r) (Room.isDemo r)
         (size (Room.listeners r)).

(** ** Messages leaving the server *)
Record Message := mkMessage {
  msg_id : string;
  msg_text : string;
  msg_system : bool;
  msg_timestamp : N;
  msg_userId : string
}.

Inductive ServerEvent :=
  | room_list (roomList : list RoomInfo)
  | user_joined (userId : string)
  | user_left (userId : string)
  | webrtc_signal (type payload : option string) (senderId : string)
  | host_start_stream
  | listener_request_connection (listenerId : string)
  | check_stream_status (requesterId : string)
  | new_message (message : Message).

(** The value handed to an acknowledgment callback. *)
Inductive Ack :=
  | created (newRoom : Room.t)
  | join_failed (message : string)
  | join_ok (room : RoomInfo).

(** Who an emit was addressed to: [io.to(g)], [socket.emit], [socket.to(g)]. *)
Inductive Target :=
  | io_to (g : option string)
  | to_self (socket : string)
  | socket_to (socket g : string).

Inductive Out :=
  | Sent (target : Target) (recipients : list string) (ev : ServerEvent)
  | Acked (socket : string) (ack : Ack).

(** ** Server state

    [rooms] is the module-level [Map]; [adapter] is socket.io's table from a
    group name to the sockets joined to it (every socket joins the group
    named by its own id when it connects); [sockets] are the live
    connections. *)
Record Server := mkServer {
  rooms : list (string * Room.t);
  adapter : gmap string (gset string);
  sockets : gset string
}.

Definition members (g : string) (s : Server) : gset string :=
  default ∅ (adapter s !! g).

Definition recipients_of (t : Target) (s : Server) : list string :=
  match t with
  | io_to (Some g) => elements (members g s)
  | io_to None => []
  | to_self socket => [socket]
  | socket_to socket g => elements (members g s ∖ {[socket]})
  end.

(** ** Handlers as state transformers that may throw

    A handler runs against the server state, appends to the list of
    messages sent, and either completes or throws; what it did before
    throwing stays done. *)
Inductive Completion (A : Type) :=
  | Normal (a : A)
  | Throw (e : string).
Arguments Normal {A} a.
Arguments Throw {A} e.

Record Run (A : Type) := mkRun {
  completion : Completion A;
  server : Server;
  outputs : list Out
}.
Arguments mkRun {A}.
Arguments completion {A}.
Arguments server {A}.
Arguments outputs {A}.

Definition Handler (A : Type) : Type := Server → Run A.

Global Instance Handler_ret : MRet Handler := λ A a s, mkRun (Normal a) s [].

Global Instance Handler_bind : MBind Handler := λ A B k m s,
  let r := m s in
  match completion r with
  | Normal a =>
      let r' := k a (server r) in
      mkRun (completion r') (server r') (outputs r ++ outputs r')
  | Throw e => mkRun (Throw e) (server r) (outputs r)
  end.

Definition throw {A} (e : string) : Handler A := λ s, mkRun (Throw e) s [].
Definition gets {A} (f : Server → A) : Handler A := λ s, mkRun (Normal (f s)) s [].
Definition modify (f : Server → Server) : Handler () := λ s, mkRun (Normal ()) (f s) [].
Definition tell (o : Server → Out) : Handler () := λ s, mkRun (Normal ()) s [o s].

(** *** Primitive operations used by the handlers *)

Definition set_rooms (f : list (string * Room.t) → list (string * Room.t)) (s : Server) : Server :=
  mkServer (f (rooms s)) (adapter s) (sockets s).

Definition set_adapter (f : gmap string (gset string) → gmap string (gset string)) (s : Server) : Server :=
  mkServer (rooms s) (f (adapter s)) (sockets s).

Definition rooms_get (roomId : string) : Handler (option Room.t) :=
  gets (λ s, JsMap.get roomId (rooms s)).

Definition rooms_set (roomId : string) (room : Room.t) : Handler () :=
  modify (set_rooms (JsMap.set roomId room)).

Definition rooms_delete (roomId : string) : Handler () :=
  modify (set_rooms (JsMap.delete roomId)).

(** The room with [x] added to, or deleted from, its listener set. *)
Definition enter (x : string) (room : Room.t) : Room.t :=
  Room.with_listeners ({[x]} ∪ Room.listeners room) room.

Definition leave (x : string) (room : Room.t) : Room.t :=
  Room.with_listeners (Room.listeners room ∖ {[x]}) room.

(** [room.listeners.add(x)] / [room.listeners.delete(x)] mutate the object
    held in the map under [roomId]. *)
Definition listeners_add (roomId : string) (room : Room.t) (x : string) : Handler Room.t :=
  let room' := enter x room in
  rooms_set roomId room';; mret room'.

Definition listeners_delete (roomId : string) (room : Room.t) (x : string) : Handler Room.t :=
  let room' := leave x room in
  rooms_set roomId room';; mret room'.

(** The state after [socket.join(g)] and after [socket.leave(g)]. *)
Definition joined (socket g : string) (s : Server) : Server :=
  set_adapter (λ a, <[g := {[socket]} ∪ default ∅ (a !! g)]> a) s.

Definition left (socket g : string) (s : Server) : Server :=
  set_adapter (alter (λ m, m ∖ {[socket]}) g) s.

Definition socket_join (socket g : string) : Handler () :=
  modify (joined socket g).

Definition socket_leave (socket g : string) : Handler () :=
  modify (left socket g).

Definition emit (t : Target) (ev : ServerEvent) : Handler () :=
  tell (λ s, Sent t (recipients_of t s) ev).

(** [callback(x)]: calling an absent callback is a [TypeError]. *)
Definition invoke (callback : bool) (socket : string) (a : Ack) : Handler () :=
  if callback then tell (λ _, Acked socket a)
  else throw "TypeError: callback is not a function".

(** ** Inbound events

    An argument that the handler destructures ([({ roomId }) => ...]) is
    [None] when the client sent no object at all.  For [webrtc-signal] the
    three fields may each be missing from a present object. *)
Record Signal := mkSignal {
  type : option string;
  payload : option string;
  targetUserId : option string
}.

Inductive ClientEvent :=
  | connection
  | join_lobby
  | create_room (name : option string) (callback : bool)
  | join_room (roomId : string) (callback : bool)
  | leave_room (roomId : string)
  | webrtc_signal_in (arg : option Signal)
  | host_start_stream_in (arg : option string)
  | listener_request_connection_in (arg : option string)
  | check_stream_status_in (arg : option string)
  | stream_status_reply (arg : option (string * bool))
  | send_message (arg : option (string * string))
  | disconnect.

(** One turn of the event loop: the socket the event arrived on, the value
    [Date.now()] has during the turn, and the event. *)
Record Turn := mkTurn {
  socket : string;
  now : N;
  event : ClientEvent
}.

(** ** Startup *)

Definition SYSTEM : string := "SYSTEM".

Definition DEMO_ROOMS (now : N) : list Room.t :=
  [ Room.mk "demo-nts-1" "NTS Radio 1"
      (Some "https://stream-relay-geo.ntslive.net/stream")
      SYSTEM ∅ now "active" true;
    Room.mk "demo-soma-groove" "SomaFM Groove Salad"
      (Some "https://ice2.somafm.com/groovesalad-128-mp3")
      SYSTEM ∅ now "active" true;
    Room.mk "demo-soma-defcon" "SomaFM DEF CON Radio"
      (Some "https://ice2.somafm.com/defcon-128-mp3")
      SYSTEM ∅ now "active" true;
    Room.mk "demo-lofi" "Lofi Girl Radio"
      (Some "https://play.streamafrica.net/lofiradio")
      SYSTEM ∅ now "active" true ].

(** [DEMO_ROOMS.forEach(room => rooms.set(room.id, room))] on the empty map. *)
Definition boot (now : N) : Server :=
  mkServer
    (foldl (λ m room, JsMap.set (Room.id room) room m) [] (DEMO_ROOMS now))
    ∅ ∅.

(** ** Handlers *)

(** [str.slice(-k)]: the last [k] characters, or all of them. *)
Definition slice_last (k : nat) (s : string) : string :=
  string_of_list_ascii (drop (String.length s - k) (list_ascii_of_string s)).

(** [`room-${Date.now().toString().slice(-6)}`] *)
Definition roomId_at (now : N) : string :=
  "room-" +:+ slice_last 6 (pretty now).

(** [name || `Signal ${roomId}`]: an absent or empty name is falsy. *)
Definition name_or (name : option string) (roomId : string) : string :=
  match name with
  | Some n => if decide (n = "") then "Signal " +:+ roomId else n
  | None => "Signal " +:+ roomId
  end.

Definition broadcastLobbyUpdate : Handler () :=
  roomList ← gets (λ s, snapshot <$> JsMap.values (rooms s));
  emit (io_to (Some "lobby")) (room_list roomList).

Definition on_join_lobby (socket : string) : Handler () :=
  socket_join socket "lobby";;
  roomList ← gets (λ s, snapshot <$> JsMap.values (rooms s));
  emit (to_self socket) (room_list roomList).

(** The [newRoom] object literal of the create-room handler. *)
Definition created_room (socket : string) (now : N) (name : option string) : Room.t :=
  let roomId := roomId_at now in
  Room.mk roomId (name_or name roomId) None socket ∅ now "active" false.

Definition on_create_room (socket : string) (now : N)
    (name : option string) (callback : bool) : Handler () :=
  let roomId := roomId_at now in
  let newRoom := created_room socket now name in
  rooms_set roomId newRoom;;
  socket_join socket roomId;;
  invoke callback socket (created newRoom);;
  broadcastLobbyUpdate.

Definition on_join_room (socket : string) (roomId : string) (callback : bool) : Handler () :=
  room ← rooms_get roomId;
  match room with
  | None => invoke callback socket (join_failed "Room not found or signal lost.")
  | Some room =>
      socket_join socket roomId;;
      room ← listeners_add roomId room socket;
      emit (io_to (Some (Room.hostId room))) (user_joined socket);;
      invoke callback socket (join_ok (snapshot room));;
      broadcastLobbyUpdate
  end.

Definition sys_destroy (now : N) : Message :=
  mkMessage "sys-destroy" "HOST DISCONNECTED. SIGNAL LOST." true now SYSTEM.

Definition handleLeaveRoom (socket : string) (now : N) (roomId : string) : Handler () :=
  room ← rooms_get roomId;
  match room with
  | None => mret ()
  | Some room =>
      if Room.isDemo room then
        listeners_delete roomId room socket;;
        socket_leave socket roomId;;
        emit (io_to (Some roomId)) (user_left socket);;
        broadcastLobbyUpdate
      else
        (if decide (Room.hostId room = socket) then
           emit (io_to (Some roomId)) (new_message (sys_destroy now));;
           rooms_delete roomId
         else
           listeners_delete roomId room socket;;
           socket_leave socket roomId;;
           emit (io_to (Some roomId)) (user_left socket));;
        broadcastLobbyUpdate
  end.

Definition on_webrtc_signal (socket : string) (arg : option Signal) : Handler () :=
  match arg with
  | None => throw "TypeError: Cannot destructure property 'type' of 'undefined'"
  | Some sg =>
      emit (io_to (targetUserId sg)) (webrtc_signal (type sg) (payload sg) socket)
  end.

Definition on_host_start_stream (socket : string) (arg : option string) : Handler () :=
  match arg with
  | None => throw "TypeError: Cannot destructure property 'roomId' of 'undefined'"
  | Some roomId => emit (socket_to socket roomId) host_start_stream
  end.

Definition on_listener_request_connection (socket : string) (arg : option string) : Handler () :=
  match arg with
  | None => throw "TypeError: Cannot destructure property 'roomId' of 'undefined'"
  | Some roomId =>
      room ← rooms_get roomId;
      match room with
      | Some room =>
          if decide (Room.hostId room = "") then mret ()
          else emit (io_to (Some (Room.hostId room))) (listener_request_connection socket)
      | None => mret ()
      end
  end.

Definition on_check_stream_status (socket : string) (arg : option string) : Handler () :=
  match arg with
  | None => throw "TypeError: Cannot destructure property 'roomId' of 'undefined'"
  | Some roomId =>
      room ← rooms_get roomId;
      match room with
      | Some room =>
          if decide (Room.hostId room = "") then mret ()
          else emit (io_to (Some (Room.hostId room))) (check_stream_status socket)
      | None => mret ()
      end
  end.

Definition on_stream_status_reply (arg : option (string * bool)) : Handler () :=
  match arg with
  | None => throw "TypeError: Cannot destructure property 'requesterId' of 'undefined'"
  | Some (requesterId, isStreaming) =>
      if isStreaming then emit (io_to (Some requesterId)) host_start_stream
      else mret ()
  end.

Definition on_send_message (socket : string) (now : N) (arg : option (string * string)) : Handler () :=
  match arg with
  | None => throw "TypeError: Cannot destructure property 'roomId' of 'undefined'"
  | Some (roomId, text) =>
      let message := mkMessage (socket +:+ "-" +:+ pretty now) text false now socket in
      emit (io_to (Some roomId)) (new_message message)
  end.

(** [rooms.forEach]: entries are visited in insertion order; an entry
    deleted before it is reached is skipped.  The callback below never adds
    an entry, so walking the keys present at the start and looking each one
    up again is the same iteration. *)
Fixpoint forEach_keys (f : Room.t → string → Handler ()) (ks : list string) : Handler () :=
  match ks with
  | [] => mret ()
  | k :: ks' =>
      (r ← rooms_get k;
       match r with
       | Some room => f room k
       | None => mret ()
       end);;
      forEach_keys f ks'
  end.

Definition rooms_forEach (f : Room.t → string → Handler ()) : Handler () :=
  ks ← gets (λ s, JsMap.keys (rooms s));
  forEach_keys f ks.

Definition on_disconnect (socket : string) (now : N) : Handler () :=
  rooms_forEach (λ room roomId,
    if decide (Room.hostId room = socket ∨ socket ∈ Room.listeners room)
    then handleLeaveRoom socket now roomId
    else mret ()).

(** *** What socket.io does around the handlers

    A new socket is registered and joins the group named by its id; a
    closing socket has left every group and is unregistered by the time its
    ['disconnect'] listeners run. *)
Definition opened (socket : string) (s : Server) : Server :=
  mkServer (rooms s)
           (<[socket := {[socket]} ∪ default ∅ (adapter s !! socket)]> (adapter s))
           ({[socket]} ∪ sockets s).

Definition closed (socket : string) (s : Server) : Server :=
  mkServer (rooms s) ((λ m, m ∖ {[socket]}) <$> adapter s) (sockets s ∖ {[socket]}).

Definition transport_open (socket : string) : Handler () := modify (opened socket).

Definition transport_close (socket : string) : Handler () := modify (closed socket).

Definition handle (t : Turn) : Handler () :=
  match event t with
  | connection => transport_open (socket t)
  | join_lobby => on_join_lobby (socket t)
  | create_room name callback => on_create_room (socket t) (now t) name callback
  | join_room roomId callback => on_join_room (socket t) roomId callback
  | leave_room roomId => handleLeaveRoom (socket t) (now t) roomId
  | webrtc_signal_in arg => on_webrtc_signal (socket t) arg
  | host_start_stream_in arg => on_host_start_stream (socket t) arg
  | listener_request_connection_in arg => on_listener_request_connection (socket t) arg
  | check_stream_status_in arg => on_check_stream_status (socket t) arg
  | stream_status_reply arg => on_stream_status_reply arg
  | send_message arg => on_send_message (socket t) (now t) arg
  | disconnect => transport_close (socket t);; on_disconnect (socket t) (now t)
  end.

(** A run of the process: turns are handled in order; an exception that
    escapes a handler is uncaught and ends the process, so the remaining
    turns are never handled. *)
Fixpoint run (ts : list Turn) : Handler () :=
  match ts with
  | [] => mret ()
  | t :: ts' => handle t;; run ts'
  end.

Definition list_rooms (s : Server) : list RoomInfo :=
  snapshot <$> JsMap.values (rooms s).

(** * Vocabulary of the properties

    The predicates the statements below are written with, and the concrete
    traces they are evaluated on. *)

(** ** Outputs *)

(** What [broadcastLobbyUpdate] emits in state [s]. *)
Definition lobby_update (s : Server) : Out :=
  Sent (io_to (Some "lobby")) (elements (members "lobby" s)) (room_list (list_rooms s)).

(** Some output carries [ev] to [x]. *)
Definition delivered (x : string) (ev : ServerEvent) (outs : list Out) : Prop :=
  ∃ t recipients, Sent t recipients ev ∈ outs ∧ x ∈ recipients.

(** A system chat notice: [new-message] with the system flag set and sender
    ['SYSTEM']. *)
Definition is_system_notice (ev : ServerEvent) : bool :=
  match ev with
  | new_message m => msg_system m && bool_decide (msg_userId m = SYSTEM)
  | _ => false
  end.

Definition occurrences (x : string) (l : list string) : nat :=
  length (filter (λ y, y = x) l).

(** How many system notices [x] is sent by one output, and by a list of
    outputs; [notices_via g] counts those emitted to the group [g]. *)
Definition notices_in (x : string) (o : Out) : nat :=
  match o with
  | Sent _ recipients ev => if is_system_notice ev then occurrences x recipients else 0
  | Acked _ _ => 0
  end.

Definition via (g : string) (o : Out) : bool :=
  match o with
  | Sent (io_to (Some g')) _ _ => bool_decide (g' = g)
  | _ => false
  end.

Definition notices (x : string) (outs : list Out) : nat :=
  sum_list_with (notices_in x) outs.

Definition notices_via (g x : string) (outs : list Out) : nat :=
  sum_list_with (λ o, if via g o then notices_in x o else 0) outs.

(** ** Events *)



(** The turn is a [join-room] sent by the host of the room it names. *)
Definition host_joins (t : Turn) (s : Server) : bool :=
  match event t with
  | join_room roomId _ =>
      match JsMap.get roomId (rooms s) with
      | Some room => bool_decide (Room.hostId room = socket t)
      | None => false
      end
  | _ => false
  end.

Fixpoint no_host_joins (ts : list Turn) (s : Server) : bool :=
  match ts with
  | [] => true
  | t :: ts' => negb (host_joins t s) && no_host_joins ts' (server (handle t s))
  end.



(** Some [create-room] in the turns generates the id [R]. *)
Definition allocates (R : string) (ts : list Turn) : bool :=
  existsb (λ t, match event t with
                | create_room _ _ => bool_decide (roomId_at (now t) = R)
                | _ => false
                end) ts.


(** ** The room store *)

(** Every change a handler makes to [rooms] is one of four steps: a room is
    stored under a generated id with the sender as host (only by
    [create-room]), the sender is added to a stored room's listeners (only
    by [join-room], on the room it names), the sender is removed from a
    stored room's listeners, or a non-demo room hosted by the sender is
    deleted.  [mint] and [allow] say which ids may be generated and which
    rooms may be entered. *)
Inductive store_step (sock : string) (mint : string → Prop) (allow : string → Room.t → Prop) :
    list (string * Room.t) → list (string * Room.t) → Prop :=
  | step_create now name m :
      mint (roomId_at now) →
      store_step sock mint allow m
        (JsMap.set (roomId_at now) (created_room sock now name) m)
  | step_enter k room m :
      allow k room →
      JsMap.get k m = Some room →
      store_step sock mint allow m (JsMap.set k (enter sock room) m)
  | step_leave k room m :
      JsMap.get k m = Some room →
      store_step sock mint allow m (JsMap.set k (leave sock room) m)
  | step_destroy k room m :
      JsMap.get k m = Some room →
      Room.isDemo room = false →
      Room.hostId room = sock →
      store_step sock mint allow m (JsMap.delete k m).

(** What the turn [t], handled in state [s], may enter and may generate. *)
Definition joins (t : Turn) (s : Server) (k : string) (room : Room.t) : Prop :=
  (∃ cb, event t = join_room k cb) ∧ JsMap.get k (rooms s) = Some room.

Definition mints (t : Turn) (k : string) : Prop :=
  (∃ name cb, event t = create_room name cb) ∧ k = roomId_at (now t).

(** Keys are distinct, only ['SYSTEM'] hosts demo rooms, and a room is
    stored under its own id. *)
Record store_ok (m : list (string * Room.t)) : Prop := mk_store_ok {
  ok_nodup : NoDup (JsMap.keys m);
  ok_demo : ∀ k room, JsMap.get k m = Some room →
                      Room.isDemo room = true → Room.hostId room = SYSTEM;
  ok_id : ∀ k room, JsMap.get k m = Some room → Room.id room = k
}.

(** [r] is the startup record [d] except for its listener set. *)
Definition same_but_listeners (d r : Room.t) : Prop :=
  r = Room.with_listeners (Room.listeners r) d.

Definition demo_rooms_kept (t0 : N) (m : list (string * Room.t)) : Prop :=
  Forall (λ d, ∃ r, JsMap.get (Room.id d) m = Some r
                    ∧ same_but_listeners d r
                    ∧ Room.hostId r = SYSTEM
                    ∧ Room.isDemo r = true)
         (DEMO_ROOMS t0).

Definition listeners_exclude_host (m : list (string * Room.t)) : Prop :=
  ∀ k room, JsMap.get k m = Some room → Room.hostId room ∉ Room.listeners room.

(** Every listener of a stored room is joined to the room's group. *)
Definition listeners_joined (s : Server) : Prop :=
  ∀ k room, JsMap.get k (rooms s) = Some room → Room.listeners room ⊆ members k s.

(** [p] is host of no room and listener of no room. *)
Definition fully_removed (p : string) (m : list (string * Room.t)) : Prop :=
  ∀ k room, JsMap.get k m = Some room →
            Room.hostId room ≠ p ∧ p ∉ Room.listeners room.

Definition fully_removedb (p : string) (m : list (string * Room.t)) : bool :=
  forallb (λ room, bool_decide (Room.hostId room ≠ p)
                   && bool_decide (p ∉ Room.listeners room))
          (JsMap.values m).

(** The room is out of the store: [list_rooms] has no entry for it and
    [join_room] on its id is answered with the failure acknowledgment. *)
Definition room_gone (R : string) (s : Server) : Prop :=
  JsMap.get R (rooms s) = None
  ∧ (∀ info, info ∈ list_rooms s → info_id info ≠ R)
  ∧ (∀ Z, on_join_room Z R true s =
          mkRun (Normal ()) s [Acked Z (join_failed "Room not found or signal lost.")]).

(** ** The disconnect scan *)

(** The body of the [forEach] in the disconnect handler, for one key. *)
Definition visit (socket : string) (now : N) (k : string) : Handler () :=
  r ← rooms_get k;
  match r with
  | Some room =>
      if decide (Room.hostId room = socket ∨ socket ∈ Room.listeners room)
      then handleLeaveRoom socket now k
      else mret ()
  | None => mret ()
  end.

(** The [forEach] of the disconnect handler over the keys [ks]. *)
Definition scan (socket : string) (now : N) (ks : list string) : Handler () :=
  forEach_keys (λ room roomId,
    if decide (Room.hostId room = socket ∨ socket ∈ Room.listeners room)
    then handleLeaveRoom socket now roomId
    else mret ()) ks.

(** What the scan makes of one stored room: untouched when the socket is
    neither host nor listener, deleted when it hosts a non-demo room,
    otherwise kept without the socket among its listeners. *)
Definition after_leave (p : string) (room : Room.t) : option Room.t :=
  if decide (Room.hostId room = p ∨ p ∈ Room.listeners room) then
    if Room.isDemo room then Some (leave p room)
    else if decide (Room.hostId room = p) then None
    else Some (leave p room)
  else Some room.

(** The socket is joined to no group, which is how socket.io hands it to
    the disconnect handler. *)
Definition in_no_group (p : string) (s : Server) : Prop :=
  ∀ g, p ∉ members g s.

(** What one visited key contributes to the notices emitted to [R]. *)
Definition notice_due (p x R : string) (s : Server) : nat :=
  match JsMap.get R (rooms s) with
  | Some room =>
      if Room.isDemo room then 0
      else if decide (Room.hostId room = p) then occurrences x (elements (members R s))
      else 0
  | None => 0
  end.

(** ** Traces *)

Definition T0 : N := 1700000000000.

Definition two_joins : list Turn :=
  [ mkTurn "Y" 1 connection;
    mkTurn "Y" 2 (join_room "demo-lofi" true) ].


Definition stranger_scene : list Turn :=
  [ mkTurn "L" 1 connection;
    mkTurn "L" 2 join_lobby;
    mkTurn "X" 3 connection;
    mkTurn "X" 4 (create_room (Some "Test") true);
    mkTurn "Y" 5 connection;
    mkTurn "Y" 6 (join_room "room-4" true);
    mkTurn "A" 7 connection ].

Definition host_joins_own_room : list Turn :=
  [ mkTurn "X" 3 connection;
    mkTurn "X" 4 (create_room (Some "Test") true);
    mkTurn "X" 5 (join_room "room-4" true) ].

Definition guest_joins : list Turn :=
  [ mkTurn "X" 3 connection;
    mkTurn "X" 4 (create_room (Some "Test") true);
    mkTurn "Y" 5 connection;
    mkTurn "Y" 6 (join_room "room-4" true);
    mkTurn "Y" 7 (leave_room "room-4");
    mkTurn "Y" 8 (join_room "room-4" true);
    mkTurn "X" 9 (webrtc_signal_in (Some (mkSignal (Some "offer") (Some "P") (Some "Y")))) ].

Definition host_and_guest : list Turn :=
  [ mkTurn "X" 3 connection;
    mkTurn "X" 4 (create_room (Some "Test") true);
    mkTurn "Y" 5 connection;
    mkTurn "Y" 6 (join_room "room-4" true);
    mkTurn "Y" 7 (join_room "demo-lofi" true) ].

Definition room_with_listener : list Turn :=
  [ mkTurn "X" 3 connection;
    mkTurn "X" 4 (create_room (Some "Test") true);
    mkTurn "Y" 5 connection;
    mkTurn "Y" 6 (join_room "room-4" true) ].



Definition host_leaves_id_returns : list Turn :=
  [ mkTurn "X" T0 connection;
    mkTurn "X" (T0 + 5) (create_room (Some "first") true);
    mkTurn "Y" (T0 + 6) connection;
    mkTurn "Y" (T0 + 7) (join_room "room-000005" true);
    mkTurn "X" (T0 + 8) disconnect;
    mkTurn "Z" (T0 + 9) connection;
    mkTurn "Z" (T0 + 1000005) (create_room (Some "later") true);
    mkTurn "W" (T0 + 1000006) connection;
    mkTurn "W" (T0 + 1000007) (join_room "room-000005" true) ].

(** ** Further vocabulary *)

(** The state [create-room] leaves behind. *)
Definition after_create (socket : string) (now : N) (name : option string) (s : Server) : Server :=
  joined socket (roomId_at now)
    (set_rooms (JsMap.set (roomId_at now) (created_room socket now name)) s).

(** The state [join-room] leaves behind when [room] is stored under [roomId]. *)
Definition after_join (socket roomId : string) (room : Room.t) (s : Server) : Server :=
  set_rooms (JsMap.set roomId (enter socket room)) (joined socket roomId s).

(** The state the listener branch of [handleLeaveRoom] leaves behind. *)
Definition after_listener_left (socket roomId : string) (room : Room.t) (s : Server) : Server :=
  left socket roomId (set_rooms (JsMap.set roomId (leave socket room)) s).

Definition fresh_room_scene : list Turn :=
  [ mkTurn "L" 1 connection;
    mkTurn "L" 2 join_lobby;
    mkTurn "X" 3 connection ].

(** The six events that only pass a message on. *)
Definition is_relay (e : ClientEvent) : bool :=
  match e with
  | webrtc_signal_in _ | host_start_stream_in _ | listener_request_connection_in _
  | check_stream_status_in _ | stream_status_reply _ | send_message _ => true
  | _ => false
  end.

(** A condition that holds of every turn of a trace, in the state the turn
    is handled in. *)
Fixpoint all_turns (ok : Turn → Server → bool) (ts : list Turn) (s : Server) : bool :=
  match ts with
  | [] => true
  | t :: ts' => ok t s && all_turns ok ts' (server (handle t s))
  end.

(** A [create-room] or [join-room] arrives on a socket that is connected. *)
Definition sender_connected (t : Turn) (s : Server) : bool :=
  match event t with
  | create_room _ _ | join_room _ _ => bool_decide (socket t ∈ sockets s)
  | _ => true
  end.

(** Hosts of non-demo rooms and all listeners are live connections. *)
Definition participants_connected (s : Server) : Prop :=
  ∀ k room, JsMap.get k (rooms s) = Some room →
            (Room.isDemo room = false → Room.hostId room ∈ sockets s)
            ∧ Room.listeners room ⊆ sockets s.

(** The host of a non-demo room is joined to the room's group. *)
Definition host_joined (s : Server) : Prop :=
  ∀ k room, JsMap.get k (rooms s) = Some room →
            Room.isDemo room = false → Room.hostId room ∈ members k s.

(** The turn is not the disconnect of [x]. *)
Definition not_disconnect_of (x : string) (t : Turn) (s : Server) : bool :=
  match event t with
  | disconnect => bool_decide (socket t ≠ x)
  | _ => true
  end.

(** The turn does not arrive on a socket named [x]. *)
Definition not_from (x : string) (t : Turn) (s : Server) : bool :=
  bool_decide (socket t ≠ x).

Definition connected_scene : list Turn :=
  [ mkTurn "X" 3 connection;
    mkTurn "X" 4 (create_room (Some "Test") true);
    mkTurn "Y" 5 connection;
    mkTurn "Y" 6 (join_room "room-4" true);
    mkTurn "Y" 7 (join_room "demo-lofi" true);
    mkTurn "X" 8 disconnect ].

(** The store begins with the demo rooms, in their startup order. *)
Definition demo_rooms_first (t0 : N) (m : list (string * Room.t)) : Prop :=
  demo_rooms_kept t0 m
  ∧ ∃ rest, JsMap.keys m = (Room.id <$> DEMO_ROOMS t0) ++ rest.

(** [handleLeaveRoom socket k] takes its listener branch: a room is stored
    under [k] and it is a demo room or not hosted by [socket]. *)
Definition listener_branch (socket k : string) (s : Server) : bool :=
  match JsMap.get k (rooms s) with
  | Some room => Room.isDemo room || negb (bool_decide (Room.hostId room = socket))
  | None => false
  end.

(** The group the turn joins its socket to, if any. *)
Definition group_joined (t : Turn) (s : Server) : option string :=
  match event t with
  | connection => Some (socket t)
  | join_lobby => Some "lobby"
  | create_room _ _ => Some (roomId_at (now t))
  | join_room k _ =>
      match JsMap.get k (rooms s) with Some _ => Some k | None => None end
  | _ => None
  end.

(** The turn takes its socket out of the group [g]. *)
Definition group_left (t : Turn) (s : Server) (g : string) : bool :=
  match event t with
  | leave_room k => bool_decide (k = g) && listener_branch (socket t) k s
  | disconnect => true
  | _ => false
  end.

(** No clock reading generates the id [R]. *)
Definition reserved (R : string) : Prop := ∀ now, roomId_at now ≠ R.

Definition lobby_scene : list Turn :=
  [ mkTurn "X" 3 connection;
    mkTurn "X" 4 (create_room (Some "Test") true);
    mkTurn "Y" 5 connection;
    mkTurn "Y" 6 (join_room "room-4" true);
    mkTurn "L" 7 (leave_room "lobby");
    mkTurn "X" 8 disconnect ].

(** A name that is neither the lobby's nor shaped like a room id: socket.io
    generates its socket ids without such prefixes. *)
Definition socket_like (x : string) : bool :=
  negb (String.prefix "room-" x) && negb (String.prefix "demo-" x)
  && negb (bool_decide (x = "lobby")).

(** No room is stored under a socket-like name. *)
Definition keys_are_room_names (m : list (string * Room.t)) : Prop :=
  ∀ k room, JsMap.get k m = Some room → socket_like k = false.

(** The group named by a socket id holds that socket while it is connected
    and nobody otherwise. *)
Definition own_group (x : string) (s : Server) : Prop :=
  members x s = if bool_decide (x ∈ sockets s) then {[x]} else ∅.

(** * Properties *)

(** ** The map operations *)
Module JsMapFacts.
Section Facts.
Context {V : Type}.
Implicit Types (m : list (string * V)) (k : string) (v : V).

Lemma get_set_eq k v m : JsMap.get k (JsMap.set k v m) = Some v.
Proof.
  induction m as [|[k' v'] m IH]; simpl.
  - by rewrite decide_True.
  - destruct (decide (k = k')); simpl.
    + by rewrite decide_True.
    + by rewrite decide_False.
Qed.

Lemma get_set_ne k k' v m : k' ≠ k → JsMap.get k' (JsMap.set k v m) = JsMap.get k' m.
Proof.
  intros Hne. induction m as [|[k0 v0] m IH]; simpl.
  - by rewrite decide_False.
  - destruct (decide (k = k0)) as [->|]; simpl.
    + by rewrite !decide_False.
    + by rewrite IH.
Qed.

Lemma get_delete_eq k m : JsMap.get k (JsMap.delete k m) = None.
Proof.
  induction m as [|[k0 v0] m IH]; simpl; [done|].
  destruct (decide (k = k0)); simpl; [done|]. by rewrite decide_False.
Qed.

Lemma get_delete_ne k k' m : k' ≠ k → JsMap.get k' (JsMap.delete k m) = JsMap.get k' m.
Proof.
  intros Hne. induction m as [|[k0 v0] m IH]; simpl; [done|].
  destruct (decide (k = k0)) as [->|]; simpl.
  - by rewrite decide_False.
  - by rewrite IH.
Qed.

(** Writing back the value already stored changes nothing. *)
Lemma set_same k v m : JsMap.get k m = Some v → JsMap.set k v m = m.
Proof.
  induction m as [|[k0 v0] m IH]; simpl; [done|].
  destruct (decide (k = k0)) as [->|]; [by intros [= ->]|].
  intros Hg. by rewrite IH.
Qed.

Lemma get_Some_keys k v m : JsMap.get k m = Some v → k ∈ JsMap.keys m.
Proof.
  unfold JsMap.keys. induction m as [|[k0 v0] m IH]; simpl; [done|].
  destruct (decide (k = k0)) as [->|]; [intros _; by left|].
  intros Hg. right. by apply IH.
Qed.

Lemma get_None_keys k m : JsMap.get k m = None ↔ k ∉ JsMap.keys m.
Proof.
  unfold JsMap.keys. induction m as [|[k0 v0] m IH]; simpl.
  - split; [intros _; apply not_elem_of_nil|done].
  - rewrite not_elem_of_cons. destruct (decide (k = k0)) as [->|].
    + split; [done|]. by intros [? _].
    + rewrite IH. tauto.
Qed.

Lemma get_Some_values k v m : JsMap.get k m = Some v → v ∈ JsMap.values m.
Proof.
  unfold JsMap.values. induction m as [|[k0 v0] m IH]; simpl; [done|].
  destruct (decide (k = k0)) as [->|]; [intros [= ->]; by left|].
  intros Hg. right. by apply IH.
Qed.

(** Replacing the value under a present key keeps every key in place. *)
Lemma keys_set_present k v m :
  is_Some (JsMap.get k m) → JsMap.keys (JsMap.set k v m) = JsMap.keys m.
Proof.
  unfold JsMap.keys. induction m as [|[k0 v0] m IH]; simpl.
  - by intros [? ?].
  - destruct (decide (k = k0)) as [->|]; simpl; [done|].
    intros Hs. f_equal. by apply IH.
Qed.

Lemma keys_set_absent k v m :
  JsMap.get k m = None → JsMap.keys (JsMap.set k v m) = JsMap.keys m ++ [k].
Proof.
  unfold JsMap.keys. induction m as [|[k0 v0] m IH]; simpl; [done|].
  destruct (decide (k = k0)) as [->|]; simpl; [done|].
  intros Hs. f_equal. by apply IH.
Qed.

Lemma keys_delete_subseteq k m : JsMap.keys (JsMap.delete k m) ⊆ JsMap.keys m.
Proof.
  unfold JsMap.keys. induction m as [|[k0 v0] m IH]; simpl; [done|].
  destruct (decide (k = k0)); simpl; set_solver.
Qed.

Lemma NoDup_keys_set k v m : NoDup (JsMap.keys m) → NoDup (JsMap.keys (JsMap.set k v m)).
Proof.
  intros Hnd. destruct (JsMap.get k m) as [v0|] eqn:Hg.
  - by rewrite keys_set_present.
  - rewrite keys_set_absent by done. apply NoDup_app. split_and!; [done| |apply NoDup_singleton].
    intros x Hx ->%list_elem_of_singleton. by apply get_None_keys in Hg.
Qed.

Lemma NoDup_keys_delete k m : NoDup (JsMap.keys m) → NoDup (JsMap.keys (JsMap.delete k m)).
Proof.
  unfold JsMap.keys. induction m as [|[k0 v0] m IH]; simpl; [done|].
  intros [Hk Hnd]%NoDup_cons. destruct (decide (k = k0)); simpl; [by apply IH|].
  apply NoDup_cons. split; [|by apply IH].
  intros Hin. apply Hk. by apply (keys_delete_subseteq k m).
Qed.
End Facts.
End JsMapFacts.

(** ** What each handler does, case by case *)

Lemma handleLeaveRoom_absent socket now roomId s :
  JsMap.get roomId (rooms s) = None →
  handleLeaveRoom socket now roomId s = mkRun (Normal ()) s [].
Proof.
  intros Hg. unfold handleLeaveRoom, mbind, Handler_bind, rooms_get, gets. simpl.
  by rewrite Hg.
Qed.

Lemma handleLeaveRoom_destroy socket now roomId room s :
  JsMap.get roomId (rooms s) = Some room →
  Room.isDemo room = false →
  Room.hostId room = socket →
  let s' := set_rooms (JsMap.delete roomId) s in
  handleLeaveRoom socket now roomId s =
    mkRun (Normal ()) s'
      [ Sent (io_to (Some roomId)) (elements (members roomId s))
             (new_message (sys_destroy now));
        lobby_update s' ].
Proof.
  intros Hg Hd Hh. unfold handleLeaveRoom, mbind, Handler_bind, rooms_get, gets. simpl.
  rewrite Hg, Hd. by rewrite decide_True.
Qed.

Lemma handleLeaveRoom_listener socket now roomId room s :
  JsMap.get roomId (rooms s) = Some room →
  Room.isDemo room = true ∨ Room.hostId room ≠ socket →
  let s' := left socket roomId (set_rooms (JsMap.set roomId (leave socket room)) s) in
  handleLeaveRoom socket now roomId s =
    mkRun (Normal ()) s'
      [ Sent (io_to (Some roomId)) (elements (members roomId s')) (user_left socket);
        lobby_update s' ].
Proof.
  intros Hg Hc. unfold handleLeaveRoom, mbind, Handler_bind, rooms_get, gets. simpl.
  rewrite Hg. destruct (Room.isDemo room) eqn:Hd; [done|].
  destruct Hc as [?|Hne]; [done|]. by rewrite decide_False.
Qed.

Lemma on_join_room_absent socket roomId s :
  JsMap.get roomId (rooms s) = None →
  on_join_room socket roomId true s =
    mkRun (Normal ()) s [Acked socket (join_failed "Room not found or signal lost.")].
Proof.
  intros Hg. unfold on_join_room, mbind, Handler_bind, rooms_get, gets. simpl.
  by rewrite Hg.
Qed.

Lemma on_join_room_present socket roomId room s :
  JsMap.get roomId (rooms s) = Some room →
  let s' := set_rooms (JsMap.set roomId (enter socket room)) (joined socket roomId s) in
  on_join_room socket roomId true s =
    mkRun (Normal ()) s'
      [ Sent (io_to (Some (Room.hostId room)))
             (elements (members (Room.hostId room) s')) (user_joined socket);
        Acked socket (join_ok (snapshot (enter socket room)));
        lobby_update s' ].
Proof.
  intros Hg. unfold on_join_room, mbind, Handler_bind, rooms_get, gets. simpl.
  by rewrite Hg.
Qed.

Lemma enter_present x room : x ∈ Room.listeners room → enter x room = room.
Proof.
  intros Hx. destruct room as [i n u h l c st d]. unfold enter, Room.with_listeners.
  simpl in *. f_equal. set_solver.
Qed.

Lemma leave_absent x room : x ∉ Room.listeners room → leave x room = room.
Proof.
  intros Hx. destruct room as [i n u h l c st d]. unfold leave, Room.with_listeners.
  simpl in *. f_equal. set_solver.
Qed.

(** Group membership after [socket.join] and [socket.leave]. *)
Lemma members_joined x g g' s :
  members g (joined x g' s) =
    if decide (g = g') then {[x]} ∪ members g s else members g s.
Proof.
  unfold members, joined; simpl. destruct (decide (g = g')) as [->|Hne].
  - by rewrite lookup_insert_eq.
  - by rewrite lookup_insert_ne.
Qed.

Lemma members_left x g g' s :
  members g (left x g' s) =
    if decide (g = g') then members g s ∖ {[x]} else members g s.
Proof.
  unfold members, left; simpl. destruct (decide (g = g')) as [->|Hne].
  - rewrite lookup_alter_eq. destruct (adapter s !! g'); simpl; [done|set_solver].
  - by rewrite lookup_alter_ne.
Qed.

Lemma members_set_rooms f g s : members g (set_rooms f s) = members g s.
Proof. done. Qed.

(** ** webrtc-signal *)




(** ** leave-room *)

(** C7, as stated, fails twice.  Leaving a room that does not exist
    republishes nothing to the lobby, although a subscriber is present; and
    a participant who is neither host nor listener of an existing room
    still has [user-left] sent to that room's members. *)
Lemma leave_room_noop_cex :
  let s := server (run stranger_scene (boot 0)) in
  (JsMap.get "room-404" (rooms s) = None
   ∧ "L" ∈ members "lobby" s
   ∧ outputs (handleLeaveRoom "A" 8 "room-404" s) = [])
  ∧ (∃ room, JsMap.get "room-4" (rooms s) = Some room
       ∧ Room.hostId room ≠ "A"
       ∧ ("A" ∉ Room.listeners room)
       ∧ delivered "Y" (user_left "A") (outputs (handleLeaveRoom "A" 8 "room-4" s))).
Proof.
  intros s. split.
  - split_and!.
    + by vm_compute.
    + apply (bool_decide_unpack _). by vm_compute.
    + by vm_compute.
  - eexists. split_and!.
    + by vm_compute.
    + simpl. discriminate.
    + apply (bool_decide_unpack _). by vm_compute.
    + exists (io_to (Some "room-4")), (elements (members "room-4" s)). split.
      * replace (outputs (handleLeaveRoom "A" 8 "room-4" s))
          with [Sent (io_to (Some "room-4")) (elements (members "room-4" s)) (user_left "A");
                lobby_update s] by by vm_compute.
        apply list_elem_of_here.
      * apply elem_of_elements. apply (bool_decide_unpack _). by vm_compute.
Qed.

(** C7, amended.  [leave_room] on an identifier with no room in the store
    changes nothing, sends nothing and does not republish the lobby.  On a
    room that exists it always ends by republishing the lobby; when the
    requester is neither the host nor in the listener set the room store is
    left as it was, and [user-left {userId: requester}] is still emitted to
    the room's group. *)
Theorem leave_room_absent_or_stranger (requester roomId : string) (now : N) (s : Server) :
  (JsMap.get roomId (rooms s) = None →
     handleLeaveRoom requester now roomId s = mkRun (Normal ()) s [])
  ∧ (∀ room, JsMap.get roomId (rooms s) = Some room →
       let r := handleLeaveRoom requester now roomId s in
       completion r = Normal ()
       ∧ ∃ sent, outputs r = sent ++ [lobby_update (server r)])
  ∧ (∀ room, JsMap.get roomId (rooms s) = Some room →
       Room.hostId room ≠ requester →
       requester ∉ Room.listeners room →
       let r := handleLeaveRoom requester now roomId s in
       completion r = Normal ()
       ∧ rooms (server r) = rooms s
       ∧ outputs r =
           [ Sent (io_to (Some roomId)) (elements (members roomId s ∖ {[requester]}))
                  (user_left requester);
             lobby_update (server r) ]).
Proof.
  split_and!.
  - apply handleLeaveRoom_absent.
  - intros room Hg r. subst r.
    destruct (Room.isDemo room) eqn:Hd.
    + rewrite (handleLeaveRoom_listener _ _ _ _ _ Hg) by by left.
      split; [done|]. by eexists [_].
    + destruct (decide (Room.hostId room = requester)) as [Hh|Hh].
      * rewrite (handleLeaveRoom_destroy _ _ _ _ _ Hg Hd Hh).
        split; [done|]. by eexists [_].
      * rewrite (handleLeaveRoom_listener _ _ _ _ _ Hg) by by right.
        split; [done|]. by eexists [_].
  - intros room Hg Hh Hl r. subst r.
    rewrite (handleLeaveRoom_listener _ _ _ _ _ Hg) by by right.
    rewrite (leave_absent _ _ Hl). simpl.
    assert (JsMap.set roomId room (rooms s) = rooms s) as Hsame
      by by apply JsMapFacts.set_same.
    split_and!; [done|done|].
    rewrite members_left, decide_True by done. by rewrite members_set_rooms.
Qed.

Lemma leave_room_absent_or_stranger_witness :
  let s := server (run stranger_scene (boot 0)) in
  handleLeaveRoom "A" 8 "room-404" s = mkRun (Normal ()) s []
  ∧ (∃ sent, outputs (handleLeaveRoom "X" 8 "room-4" s)
             = sent ++ [lobby_update (server (handleLeaveRoom "X" 8 "room-4" s))])
  ∧ rooms (server (handleLeaveRoom "A" 8 "room-4" s)) = rooms s.
Proof.
  intros s.
  destruct (leave_room_absent_or_stranger "A" "room-404" 8 s) as (Habs & _ & _).
  destruct (leave_room_absent_or_stranger "X" "room-4" 8 s) as (_ & Hany & _).
  destruct (leave_room_absent_or_stranger "A" "room-4" 8 s) as (_ & _ & Hstr).
  split_and!.
  - apply Habs. by vm_compute.
  - eapply Hany. by vm_compute.
  - eapply Hstr.
    + by vm_compute.
    + simpl. discriminate.
    + apply (bool_decide_unpack _). by vm_compute.
Defined.

(** ** Sequencing *)

Lemma handleLeaveRoom_cases socket now roomId s :
  (JsMap.get roomId (rooms s) = None
   ∧ handleLeaveRoom socket now roomId s = mkRun (Normal ()) s [])
  ∨ (∃ room, JsMap.get roomId (rooms s) = Some room
       ∧ Room.isDemo room = false ∧ Room.hostId room = socket
       ∧ handleLeaveRoom socket now roomId s =
           mkRun (Normal ()) (set_rooms (JsMap.delete roomId) s)
             [ Sent (io_to (Some roomId)) (elements (members roomId s))
                    (new_message (sys_destroy now));
               lobby_update (set_rooms (JsMap.delete roomId) s) ])
  ∨ (∃ room, JsMap.get roomId (rooms s) = Some room
       ∧ (Room.isDemo room = true ∨ Room.hostId room ≠ socket)
       ∧ let s' := left socket roomId (set_rooms (JsMap.set roomId (leave socket room)) s) in
         handleLeaveRoom socket now roomId s =
           mkRun (Normal ()) s'
             [ Sent (io_to (Some roomId)) (elements (members roomId s')) (user_left socket);
               lobby_update s' ]).
Proof.
  destruct (JsMap.get roomId (rooms s)) as [room|] eqn:Hg.
  - right. destruct (Room.isDemo room) eqn:Hd.
    + right. exists room. split_and!; [done|by left|].
      apply (handleLeaveRoom_listener _ _ _ room); [done|by left].
    + destruct (decide (Room.hostId room = socket)) as [Hh|Hh].
      * left. exists room. split_and!; [done..|].
        by apply (handleLeaveRoom_destroy _ _ _ room).
      * right. exists room. split_and!; [done|by right|].
        apply (handleLeaveRoom_listener _ _ _ room); [done|by right].
  - left. split; [done|]. by apply handleLeaveRoom_absent.
Qed.

Lemma handleLeaveRoom_completes socket now roomId s :
  completion (handleLeaveRoom socket now roomId s) = Normal ().
Proof.
  destruct (handleLeaveRoom_cases socket now roomId s)
    as [[_ ->]|[(room & _ & _ & _ & ->)|(room & _ & _ & ->)]]; done.
Qed.

Lemma on_disconnect_scan socket now s :
  on_disconnect socket now s = scan socket now (JsMap.keys (rooms s)) s.
Proof.
  unfold on_disconnect, rooms_forEach, scan, mbind, Handler_bind, gets; simpl.
  by destruct (forEach_keys _ _ s).
Qed.

Lemma visit_cases socket now k s :
  (visit socket now k s = mkRun (Normal ()) s []
   ∧ ∀ room, JsMap.get k (rooms s) = Some room →
       Room.hostId room ≠ socket ∧ socket ∉ Room.listeners room)
  ∨ (visit socket now k s = handleLeaveRoom socket now k s
     ∧ ∃ room, JsMap.get k (rooms s) = Some room
         ∧ (Room.hostId room = socket ∨ socket ∈ Room.listeners room)).
Proof.
  unfold visit, mbind, Handler_bind, rooms_get, gets; simpl.
  destruct (JsMap.get k (rooms s)) as [room|] eqn:Hg.
  - destruct (decide _) as [Hm|Hm].
    + right. split; [by destruct (handleLeaveRoom socket now k s)|by exists room].
    + left. split; [done|]. intros ? [= <-]. tauto.
  - left. split; [done|]. by intros.
Qed.

Lemma visit_completes socket now k s : completion (visit socket now k s) = Normal ().
Proof.
  destruct (visit_cases socket now k s) as [[-> _]|[-> _]]; [done|].
  apply handleLeaveRoom_completes.
Qed.

Lemma scan_nil socket now s : scan socket now [] s = mkRun (Normal ()) s [].
Proof. done. Qed.

Lemma scan_cons socket now k ks s :
  scan socket now (k :: ks) s =
    let r := visit socket now k s in
    let r' := scan socket now ks (server r) in
    mkRun (completion r') (server r') (outputs r ++ outputs r').
Proof.
  change (scan socket now (k :: ks) s)
    with (Handler_bind _ _ (λ _, scan socket now ks) (visit socket now k) s).
  unfold Handler_bind. by rewrite visit_completes.
Qed.

Lemma scan_cons_server socket now k ks s :
  server (scan socket now (k :: ks) s) =
    server (scan socket now ks (server (visit socket now k s))).
Proof. by rewrite scan_cons. Qed.

Lemma scan_cons_outputs socket now k ks s :
  outputs (scan socket now (k :: ks) s) =
    outputs (visit socket now k s)
    ++ outputs (scan socket now ks (server (visit socket now k s))).
Proof. by rewrite scan_cons. Qed.

Lemma scan_completes socket now ks s : completion (scan socket now ks s) = Normal ().
Proof.
  revert s. induction ks as [|k ks IH]; intros s; [done|].
  rewrite scan_cons. apply IH.
Qed.

Lemma handle_disconnect socket now s :
  handle (mkTurn socket now disconnect) s =
    scan socket now (JsMap.keys (rooms s)) (closed socket s).
Proof.
  change (handle (mkTurn socket now disconnect) s)
    with (Handler_bind _ _ (λ _, on_disconnect socket now) (transport_close socket) s).
  unfold Handler_bind, transport_close, modify. cbn [completion server outputs].
  rewrite on_disconnect_scan. fold (closed socket s).
  by destruct (scan _ _ _ _).
Qed.

(** ** Events with missing parts *)




(** ** How a turn can change the room store *)

Lemma handleLeaveRoom_store sock mint allow now k s :
  rtc (store_step sock mint allow) (rooms s) (rooms (server (handleLeaveRoom sock now k s))).
Proof.
  destruct (handleLeaveRoom_cases sock now k s)
    as [[_ ->]|[(room & Hg & Hd & Hh & ->)|(room & Hg & _ & ->)]]; simpl.
  - done.
  - apply rtc_once. by eapply step_destroy.
  - apply rtc_once. by eapply step_leave.
Qed.

Lemma visit_store sock mint allow now k s :
  rtc (store_step sock mint allow) (rooms s) (rooms (server (visit sock now k s))).
Proof.
  destruct (visit_cases sock now k s) as [[-> _]|[-> _]]; [done|].
  apply handleLeaveRoom_store.
Qed.

Lemma scan_store sock mint allow now ks s :
  rtc (store_step sock mint allow) (rooms s) (rooms (server (scan sock now ks s))).
Proof.
  revert s. induction ks as [|k ks IH]; intros s; [done|].
  rewrite scan_cons_server. etrans; [apply visit_store|apply IH].
Qed.

Lemma on_create_room_server sock now name cb s :
  server (on_create_room sock now name cb s) =
    joined sock (roomId_at now)
      (set_rooms (JsMap.set (roomId_at now) (created_room sock now name)) s).
Proof. by destruct cb. Qed.

Lemma on_join_room_server sock roomId cb s :
  server (on_join_room sock roomId cb s) =
    match JsMap.get roomId (rooms s) with
    | Some room => set_rooms (JsMap.set roomId (enter sock room)) (joined sock roomId s)
    | None => s
    end.
Proof.
  unfold on_join_room, mbind, Handler_bind, rooms_get, gets; simpl.
  destruct (JsMap.get roomId (rooms s)); by destruct cb.
Qed.

Lemma handle_store t s :
  rtc (store_step (socket t) (mints t) (joins t s)) (rooms s) (rooms (server (handle t s))).
Proof.
  destruct t as [sock now e].
  destruct e as [| |name cb|roomId cb|roomId|[sg|]|[a|]|[a|]|[a|]|[[a b]|]|[[a b]|]|];
    try (unfold handle; simpl; done).
  - change (handle _ s) with (on_create_room sock now name cb s).
    rewrite on_create_room_server. apply rtc_once, step_create.
    split; [by exists name, cb|done].
  - change (handle _ s) with (on_join_room sock roomId cb s).
    rewrite on_join_room_server.
    destruct (JsMap.get roomId (rooms s)) as [room|] eqn:Hg; [|done].
    apply rtc_once, step_enter; [|done]. split; [by exists cb|done].
  - apply handleLeaveRoom_store.
  - unfold handle; simpl.
    unfold on_listener_request_connection, mbind, Handler_bind, rooms_get, gets; simpl.
    destruct (JsMap.get a (rooms s)); [|done]. by destruct (decide _).
  - unfold handle; simpl.
    unfold on_check_stream_status, mbind, Handler_bind, rooms_get, gets; simpl.
    destruct (JsMap.get a (rooms s)); [|done]. by destruct (decide _).
  - unfold handle; simpl. by destruct b.
  - rewrite handle_disconnect.
    change (rooms s) with (rooms (closed sock s)) at 1.
    apply scan_store.
Qed.

(** *** Runs *)

Lemma run_cons t ts s :
  run (t :: ts) s =
    let r := handle t s in
    match completion r with
    | Normal _ =>
        let r' := run ts (server r) in
        mkRun (completion r') (server r') (outputs r ++ outputs r')
    | Throw e => mkRun (Throw e) (server r) (outputs r)
    end.
Proof. done. Qed.

(** A property of the store kept by every step holds along every run. *)
Lemma run_store_invariant (P : list (string * Room.t) → Prop) :
  (∀ sock mint allow m m', store_step sock mint allow m m' → P m → P m') →
  ∀ ts s, P (rooms s) → P (rooms (server (run ts s))).
Proof.
  intros Hstep ts. induction ts as [|t ts IH]; intros s HP; [done|].
  assert (P (rooms (server (handle t s)))) as HP'.
  { pose proof (handle_store t s) as Hrtc.
    induction Hrtc as [|m1 m2 m3 H12 _ IH']; [done|]. apply IH'. by eapply Hstep. }
  rewrite run_cons. simpl. destruct (completion (handle t s)); simpl; [by apply IH|done].
Qed.

(** ** Demo rooms *)

Lemma with_listeners_twice l l' room :
  Room.with_listeners l (Room.with_listeners l' room) = Room.with_listeners l room.
Proof. done. Qed.

Lemma demo_id_not_generated t0 now d : d ∈ DEMO_ROOMS t0 → Room.id d ≠ roomId_at now.
Proof.
  unfold DEMO_ROOMS. rewrite !elem_of_cons, elem_of_nil.
  intros [->|[->|[->|[->|[]]]]]; discriminate.
Qed.

Lemma demo_rooms_kept_boot t0 : demo_rooms_kept t0 (rooms (boot t0)).
Proof. repeat constructor; by eexists. Qed.

Lemma demo_rooms_kept_step t0 sock mint allow m m' :
  store_step sock mint allow m m' → demo_rooms_kept t0 m → demo_rooms_kept t0 m'.
Proof.
  intros Hstep Hkept. unfold demo_rooms_kept in *.
  rewrite Forall_forall in Hkept. apply Forall_forall. intros d Hd.
  destruct (Hkept d Hd) as (r & Hg & Hsame & Hhost & Hdemo).
  assert (∀ l, same_but_listeners d (Room.with_listeners l r)) as Hrel.
  { intros l. unfold same_but_listeners in *. by rewrite Hsame at 1. }
  destruct Hstep as [now name m _|k room m _ Hk|k room m Hk|k room m Hk Hnd _].
  - exists r. rewrite JsMapFacts.get_set_ne by by eapply demo_id_not_generated. done.
  - destruct (decide (Room.id d = k)) as [<-|Hne].
    + exists (enter sock room). rewrite JsMapFacts.get_set_eq.
      assert (room = r) as -> by congruence. split_and!; [done|apply Hrel|done..].
    + exists r. by rewrite JsMapFacts.get_set_ne.
  - destruct (decide (Room.id d = k)) as [<-|Hne].
    + exists (leave sock room). rewrite JsMapFacts.get_set_eq.
      assert (room = r) as -> by congruence. split_and!; [done|apply Hrel|done..].
    + exists r. by rewrite JsMapFacts.get_set_ne.
  - destruct (decide (Room.id d = k)) as [<-|Hne].
    + assert (room = r) as -> by congruence. congruence.
    + exists r. by rewrite JsMapFacts.get_delete_ne.
Qed.

(** C5. After any sequence of turns from startup (joins, leaves and
    disconnects among them, in any order and from any sockets) each of the
    demo rooms is still in the store under its id, with host ['SYSTEM'], its
    demo flag set, and every field but the listener set as at startup. *)
Theorem demo_rooms_survive (t0 : N) (ts : list Turn) :
  Forall (λ d, ∃ r, JsMap.get (Room.id d) (rooms (server (run ts (boot t0)))) = Some r
                    ∧ same_but_listeners d r
                    ∧ Room.hostId r = SYSTEM
                    ∧ Room.isDemo r = true)
         (DEMO_ROOMS t0).
Proof.
  apply (run_store_invariant (demo_rooms_kept t0)).
  - intros sock mint allow m m'. apply demo_rooms_kept_step.
  - apply demo_rooms_kept_boot.
Qed.

(** ** Host and listeners *)

(** C1, as stated, fails: a host that sends [join-room] for the room it
    hosts ends up in that room's listener set. *)
Lemma host_in_listeners_cex :
  ∃ room,
    completion (run host_joins_own_room (boot 0)) = Normal ()
    ∧ JsMap.get "room-4" (rooms (server (run host_joins_own_room (boot 0)))) = Some room
    ∧ Room.hostId room = "X"
    ∧ Room.hostId room ∈ Room.listeners room.
Proof.
  eexists. split_and!.
  - by vm_compute.
  - by vm_compute.
  - done.
  - apply (bool_decide_unpack _). by vm_compute.
Qed.

Lemma listeners_exclude_host_step sock mint allow m m' :
  store_step sock mint allow m m' →
  (∀ k room, allow k room → Room.hostId room ≠ sock) →
  listeners_exclude_host m → listeners_exclude_host m'.
Proof.
  intros Hstep Hallow Hinv k' room'.
  destruct Hstep as [now name m _|k room m Hal Hk|k room m Hk|k room m Hk _ _].
  - destruct (decide (k' = roomId_at now)) as [->|Hne].
    + rewrite JsMapFacts.get_set_eq. intros [= <-]. simpl. set_solver.
    + rewrite JsMapFacts.get_set_ne by done. apply Hinv.
  - destruct (decide (k' = k)) as [->|Hne].
    + rewrite JsMapFacts.get_set_eq. intros [= <-]. simpl.
      specialize (Hinv _ _ Hk). specialize (Hallow _ _ Hal). set_solver.
    + rewrite JsMapFacts.get_set_ne by done. apply Hinv.
  - destruct (decide (k' = k)) as [->|Hne].
    + rewrite JsMapFacts.get_set_eq. intros [= <-]. simpl.
      specialize (Hinv _ _ Hk). set_solver.
    + rewrite JsMapFacts.get_set_ne by done. apply Hinv.
  - destruct (decide (k' = k)) as [->|Hne].
    + by rewrite JsMapFacts.get_delete_eq.
    + rewrite JsMapFacts.get_delete_ne by done. apply Hinv.
Qed.

Lemma listeners_exclude_host_handle t s :
  host_joins t s = false →
  listeners_exclude_host (rooms s) →
  listeners_exclude_host (rooms (server (handle t s))).
Proof.
  intros Hnj Hinv. pose proof (handle_store t s) as Hrtc.
  assert (∀ k room, joins t s k room → Room.hostId room ≠ socket t) as Hallow.
  { intros k room [[cb Hev] Hg] Hh. unfold host_joins in Hnj.
    rewrite Hev, Hg in Hnj. by apply bool_decide_eq_false in Hnj. }
  induction Hrtc as [|m1 m2 m3 H12 _ IH]; [done|].
  apply IH. by eapply listeners_exclude_host_step.
Qed.

Lemma listeners_exclude_host_run ts s :
  no_host_joins ts s = true →
  listeners_exclude_host (rooms s) →
  listeners_exclude_host (rooms (server (run ts s))).
Proof.
  revert s. induction ts as [|t ts IH]; intros s Hok Hinv; [done|].
  simpl in Hok. apply andb_true_iff in Hok as [Hnj Hok]. apply negb_true_iff in Hnj.
  pose proof (listeners_exclude_host_handle t s Hnj Hinv) as Hinv'.
  rewrite run_cons. simpl. destruct (completion (handle t s)); simpl; [by apply IH|done].
Qed.

(** C1, amended.  Along every run from startup in which no [join-room] is
    sent by the host of the room it names, no room's listener set contains
    that room's host identifier. *)
Theorem listeners_never_contain_host (t0 : N) (ts : list Turn) :
  no_host_joins ts (boot t0) = true →
  ∀ k room, JsMap.get k (rooms (server (run ts (boot t0)))) = Some room →
            Room.hostId room ∉ Room.listeners room.
Proof.
  intros Hok. apply listeners_exclude_host_run; [done|].
  intros k room Hg. apply (JsMapFacts.get_Some_values) in Hg.
  simpl in Hg. unfold JsMap.values in Hg. simpl in Hg.
  rewrite !elem_of_cons, elem_of_nil in Hg.
  destruct Hg as [->|[->|[->|[->|[]]]]]; simpl; set_solver.
Qed.

Lemma listeners_never_contain_host_witness :
  no_host_joins guest_joins (boot 0) = true
  ∧ ∃ room, JsMap.get "room-4" (rooms (server (run guest_joins (boot 0)))) = Some room
            ∧ Room.listeners room = {["Y"]}
            ∧ Room.hostId room ∉ Room.listeners room.
Proof.
  split; [by vm_compute|]. eexists. split_and!.
  - by vm_compute.
  - by vm_compute.
  - apply (listeners_never_contain_host 0 guest_joins eq_refl "room-4"). by vm_compute.
Defined.

(** ** The disconnect scan, room by room *)

Lemma visit_get p now k s k' :
  JsMap.get k' (rooms (server (visit p now k s))) =
    if decide (k' = k) then JsMap.get k (rooms s) ≫= after_leave p
    else JsMap.get k' (rooms s).
Proof.
  destruct (visit_cases p now k s) as [[-> Hno]|[-> (room & Hg & Hc)]].
  - simpl. destruct (decide (k' = k)) as [->|]; [|done].
    destruct (JsMap.get k (rooms s)) as [room|] eqn:Hg; [|done]. simpl.
    unfold after_leave. rewrite decide_False; [done|]. specialize (Hno _ eq_refl). tauto.
  - destruct (handleLeaveRoom_cases p now k s)
      as [[Hn _]|[(room' & Hg' & Hd & Hh & ->)|(room' & Hg' & Hd & ->)]];
      [congruence|..]; assert (room' = room) as -> by congruence; simpl;
      rewrite Hg; simpl; unfold after_leave; rewrite (decide_True _ _ Hc).
    + rewrite Hd, (decide_True _ _ Hh).
      destruct (decide (k' = k)) as [->|Hne];
        [apply JsMapFacts.get_delete_eq|by apply JsMapFacts.get_delete_ne].
    + destruct (decide (k' = k)) as [->|Hne];
        [rewrite JsMapFacts.get_set_eq|by apply JsMapFacts.get_set_ne].
      destruct Hd as [->|Hne]; [done|].
      destruct (Room.isDemo room); [done|]. by rewrite decide_False.
Qed.

Lemma scan_get p now ks s k' :
  NoDup ks →
  JsMap.get k' (rooms (server (scan p now ks s))) =
    if decide (k' ∈ ks) then JsMap.get k' (rooms s) ≫= after_leave p
    else JsMap.get k' (rooms s).
Proof.
  revert s. induction ks as [|k ks IH]; intros s Hnd.
  - by rewrite scan_nil.
  - apply NoDup_cons in Hnd as [Hk Hnd]. rewrite scan_cons_server.
    rewrite (IH _ Hnd), visit_get.
    destruct (decide (k' = k)) as [->|Hne].
    + rewrite (decide_False _ _ Hk). rewrite decide_True; [done|by left].
    + destruct (decide (k' ∈ ks)) as [Hin|Hin].
      * rewrite decide_True; [done|by right].
      * rewrite decide_False; [done|]. rewrite elem_of_cons. tauto.
Qed.

Lemma on_disconnect_get p now s k :
  NoDup (JsMap.keys (rooms s)) →
  JsMap.get k (rooms (server (on_disconnect p now s))) =
    JsMap.get k (rooms s) ≫= after_leave p.
Proof.
  intros Hnd. rewrite on_disconnect_scan, scan_get by done.
  destruct (decide (k ∈ JsMap.keys (rooms s))) as [Hin|Hin]; [done|].
  apply JsMapFacts.get_None_keys in Hin. by rewrite Hin.
Qed.

Lemma left_absent p k s : in_no_group p s → left p k s = s.
Proof.
  intros Hno. destruct s as [m a c]. unfold left, set_adapter; simpl. f_equal.
  apply map_eq. intros g. destruct (decide (g = k)) as [->|Hne].
  - rewrite lookup_alter_eq. specialize (Hno k). unfold members in Hno; simpl in Hno.
    destruct (a !! k) as [grp|]; simpl in *; [|done]. f_equal. set_solver.
  - by rewrite lookup_alter_ne.
Qed.

Lemma in_no_group_closed p s : in_no_group p (closed p s).
Proof.
  intros g. unfold members, closed; simpl. rewrite lookup_fmap.
  destruct (adapter s !! g); simpl; set_solver.
Qed.

Lemma members_closed p g s : members g (closed p s) = members g s ∖ {[p]}.
Proof.
  unfold members, closed; simpl. rewrite lookup_fmap.
  destruct (adapter s !! g); simpl; [done|set_solver].
Qed.

Lemma closed_fixed p s : in_no_group p s → p ∉ sockets s → closed p s = s.
Proof.
  intros Hno Hs. destruct s as [m a c]. unfold closed; simpl in *. f_equal.
  - apply map_eq. intros g. rewrite lookup_fmap. specialize (Hno g).
    unfold members in Hno; simpl in Hno.
    destruct (a !! g) as [grp|]; simpl in *; [|done]. f_equal. set_solver.
  - set_solver.
Qed.

Lemma visit_transport p now k s :
  in_no_group p s →
  adapter (server (visit p now k s)) = adapter s
  ∧ sockets (server (visit p now k s)) = sockets s.
Proof.
  intros Hno.
  destruct (visit_cases p now k s) as [[-> _]|[-> _]]; [done|].
  destruct (handleLeaveRoom_cases p now k s)
    as [[_ ->]|[(room & _ & _ & _ & ->)|(room & _ & _ & ->)]]; simpl; [done..|].
  split; [|done].
  change (adapter (left p k (set_rooms (JsMap.set k (leave p room)) s)) = adapter s).
  rewrite left_absent; [done|]. intros g. apply Hno.
Qed.

Lemma scan_transport p now ks s :
  in_no_group p s →
  adapter (server (scan p now ks s)) = adapter s
  ∧ sockets (server (scan p now ks s)) = sockets s.
Proof.
  revert s. induction ks as [|k ks IH]; intros s Hno; [done|].
  rewrite scan_cons_server.
  destruct (visit_transport p now k s Hno) as [Ha Hs].
  destruct (IH (server (visit p now k s))) as [Ha' Hs'].
  { intros g. unfold members. rewrite Ha. apply Hno. }
  split; congruence.
Qed.

(** ** Shape of the store along a run *)

Lemma store_ok_boot t0 : store_ok (rooms (boot t0)).
Proof.
  split.
  - simpl. unfold JsMap.keys. simpl. repeat (apply NoDup_cons; split; [set_solver|]).
    apply NoDup_nil_2.
  - intros k room Hg _. apply JsMapFacts.get_Some_values in Hg.
    unfold JsMap.values in Hg. simpl in Hg. rewrite !elem_of_cons, elem_of_nil in Hg.
    by destruct Hg as [->|[->|[->|[->|[]]]]].
  - intros k room Hg. simpl in Hg.
    repeat (destruct (decide _) as [->|] in Hg; [by injection Hg as <-|]). done.
Qed.

Lemma store_ok_step sock mint allow m m' :
  store_step sock mint allow m m' → store_ok m → store_ok m'.
Proof.
  intros Hstep [Hnd Hdemo Hid].
  assert (∀ k (room room' : Room.t),
            JsMap.get k m = Some room →
            Room.isDemo room' = Room.isDemo room →
            Room.hostId room' = Room.hostId room →
            Room.id room' = Room.id room →
            store_ok (JsMap.set k room' m)) as Hupd.
  { intros k room room' Hk Hd Hh Hi. split.
    - by apply JsMapFacts.NoDup_keys_set.
    - intros k0 r0. destruct (decide (k0 = k)) as [->|Hne].
      + rewrite JsMapFacts.get_set_eq. intros [= <-]. rewrite Hd, Hh. by apply (Hdemo k).
      + rewrite JsMapFacts.get_set_ne by done. apply Hdemo.
    - intros k0 r0. destruct (decide (k0 = k)) as [->|Hne].
      + rewrite JsMapFacts.get_set_eq. intros [= <-]. rewrite Hi. by apply Hid.
      + rewrite JsMapFacts.get_set_ne by done. apply Hid. }
  destruct Hstep as [now name m _|k room m _ Hk|k room m Hk|k room m Hk _ _].
  - split.
    + by apply JsMapFacts.NoDup_keys_set.
    + intros k0 r0. destruct (decide (k0 = roomId_at now)) as [->|Hne].
      * rewrite JsMapFacts.get_set_eq. by intros [= <-].
      * rewrite JsMapFacts.get_set_ne by done. apply Hdemo.
    + intros k0 r0. destruct (decide (k0 = roomId_at now)) as [->|Hne].
      * rewrite JsMapFacts.get_set_eq. by intros [= <-].
      * rewrite JsMapFacts.get_set_ne by done. apply Hid.
  - by apply (Hupd k room).
  - by apply (Hupd k room).
  - split.
    + by apply JsMapFacts.NoDup_keys_delete.
    + intros k0 r0. destruct (decide (k0 = k)) as [->|Hne].
      * by rewrite JsMapFacts.get_delete_eq.
      * rewrite JsMapFacts.get_delete_ne by done. apply Hdemo.
    + intros k0 r0. destruct (decide (k0 = k)) as [->|Hne].
      * by rewrite JsMapFacts.get_delete_eq.
      * rewrite JsMapFacts.get_delete_ne by done. apply Hid.
Qed.

Lemma store_ok_run t0 ts : store_ok (rooms (server (run ts (boot t0)))).
Proof.
  apply (run_store_invariant store_ok).
  - intros sock mint allow m m'. apply store_ok_step.
  - apply store_ok_boot.
Qed.

(** ** Disconnect of a participant who is in no room *)

Lemma fully_removedb_true p m : fully_removedb p m = true → fully_removed p m.
Proof.
  unfold fully_removedb. rewrite forallb_forall. intros Hall k room Hg.
  apply JsMapFacts.get_Some_values, list_elem_of_In, Hall in Hg.
  apply andb_true_iff in Hg as [H1 H2].
  split; by eapply bool_decide_eq_true_1.
Qed.

Lemma scan_fully_removed p now ks s :
  fully_removed p (rooms s) → scan p now ks s = mkRun (Normal ()) s [].
Proof.
  intros Hrem. induction ks as [|k ks IH]; [done|].
  rewrite scan_cons.
  destruct (visit_cases p now k s) as [[-> _]|[_ (room & Hg & Hc)]].
  - simpl. by rewrite IH.
  - destruct (Hrem _ _ Hg). tauto.
Qed.

Lemma after_leave_removed p room room' :
  (Room.isDemo room = true → Room.hostId room ≠ p) →
  after_leave p room = Some room' →
  Room.hostId room' ≠ p ∧ p ∉ Room.listeners room'.
Proof.
  intros Hdemo. unfold after_leave.
  destruct (decide (Room.hostId room = p ∨ p ∈ Room.listeners room)) as [Hc|Hc].
  - destruct (Room.isDemo room) eqn:Hd.
    + intros [= <-]. simpl. split; [by apply Hdemo|set_solver].
    + destruct (decide (Room.hostId room = p)); [done|].
      intros [= <-]. simpl. split; [done|set_solver].
  - intros [= <-]. tauto.
Qed.

Lemma disconnect_removes t0 ts p now :
  p ≠ SYSTEM →
  let s := server (run ts (boot t0)) in
  let s1 := server (handle (mkTurn p now disconnect) s) in
  fully_removed p (rooms s1) ∧ in_no_group p s1 ∧ p ∉ sockets s1.
Proof.
  intros Hp s s1. subst s1. rewrite handle_disconnect.
  destruct (store_ok_run t0 ts) as [Hnd Hdemo _]. fold s in Hnd, Hdemo.
  destruct (scan_transport p now (JsMap.keys (rooms s)) (closed p s)
              (in_no_group_closed p s)) as [Ha Hs].
  split_and!.
  - intros k room' Hg. rewrite scan_get in Hg by done.
    change (rooms (closed p s)) with (rooms s) in Hg.
    destruct (decide (k ∈ JsMap.keys (rooms s))) as [Hin|Hin].
    + destruct (JsMap.get k (rooms s)) as [room|] eqn:Hk; [|done]. simpl in Hg.
      apply (after_leave_removed p room); [|done].
      intros Hd Hh. apply Hp. rewrite <- Hh. by eapply Hdemo.
    + apply JsMapFacts.get_None_keys in Hin. congruence.
  - intros g. unfold members. rewrite Ha. apply (in_no_group_closed p s).
  - rewrite Hs. simpl. set_solver.
Qed.

(** C8. Processing a disconnect for a participant who is host of no room
    and listener of no room changes no room, destroys none, sends nothing
    and throws nothing.  In particular, once a participant's disconnect has
    been processed, processing it a second time leaves the whole server
    state as it is and sends nothing. *)
Theorem disconnect_idempotent :
  (∀ p now s,
     fully_removed p (rooms s) →
     on_disconnect p now s = mkRun (Normal ()) s []
     ∧ handle (mkTurn p now disconnect) s = mkRun (Normal ()) (closed p s) []
     ∧ rooms (closed p s) = rooms s)
  ∧ (∀ t0 ts p now now',
       p ≠ SYSTEM →
       let s1 := server (handle (mkTurn p now disconnect) (server (run ts (boot t0)))) in
       handle (mkTurn p now' disconnect) s1 = mkRun (Normal ()) s1 []).
Proof.
  split.
  - intros p now s Hrem. split_and!.
    + rewrite on_disconnect_scan. by apply scan_fully_removed.
    + rewrite handle_disconnect. by apply scan_fully_removed.
    + done.
  - intros t0 ts p now now' Hp s1.
    destruct (disconnect_removes t0 ts p now Hp) as (Hrem & Hno & Hs). fold s1 in Hrem, Hno, Hs.
    rewrite handle_disconnect, (closed_fixed p s1 Hno Hs).
    by apply scan_fully_removed.
Qed.

Lemma disconnect_idempotent_witness :
  on_disconnect "Z" 8 (server (run host_and_guest (boot 0)))
    = mkRun (Normal ()) (server (run host_and_guest (boot 0))) []
  ∧ (let s1 := server (handle (mkTurn "Y" 8 disconnect) (server (run host_and_guest (boot 0)))) in
     handle (mkTurn "Y" 9 disconnect) s1 = mkRun (Normal ()) s1 []).
Proof.
  destruct disconnect_idempotent as [Hnone Htwice]. split.
  - refine (proj1 (Hnone "Z" 8%N (server (run host_and_guest (boot 0))) _)).
    apply fully_removedb_true. by vm_compute.
  - apply (Htwice 0%N host_and_guest "Y" 8%N 9%N). unfold SYSTEM. discriminate.
Defined.

(** ** Listeners are joined to their room's group *)

Lemma after_leave_listeners p room room' :
  after_leave p room = Some room' →
  Room.listeners room' ⊆ Room.listeners room ∖ {[p]}.
Proof.
  unfold after_leave.
  destruct (decide (Room.hostId room = p ∨ p ∈ Room.listeners room)) as [Hc|Hc].
  - destruct (Room.isDemo room).
    + by intros [= <-].
    + destruct (decide (Room.hostId room = p)); [done|]. by intros [= <-].
  - intros [= <-]. set_solver.
Qed.

Lemma listeners_joined_handle t s :
  store_ok (rooms s) → listeners_joined s → listeners_joined (server (handle t s)).
Proof.
  intros Hok Hinv. destruct t as [sock now e].
  destruct e as [| |name cb|roomId cb|roomId|[sg|]|[a|]|[a|]|[a|]|[[a b]|]|[[a b]|]|];
    try (unfold handle; simpl; done).
  - intros k room Hg. specialize (Hinv k room Hg).
    unfold handle, transport_open, modify, members in *; simpl in *.
    destruct (decide (k = sock)) as [->|Hne].
    + rewrite lookup_insert_eq. simpl. set_solver.
    + by rewrite lookup_insert_ne.
  - intros k room Hg. specialize (Hinv k room Hg).
    change (server (handle _ s)) with (joined sock "lobby" s).
    rewrite members_joined. destruct (decide _); set_solver.
  - change (handle _ s) with (on_create_room sock now name cb s).
    rewrite on_create_room_server. intros k room. simpl.
    rewrite members_joined, members_set_rooms.
    destruct (decide (k = roomId_at now)) as [->|Hne].
    + rewrite JsMapFacts.get_set_eq. intros [= <-]. simpl. set_solver.
    + rewrite JsMapFacts.get_set_ne by done. apply Hinv.
  - change (handle _ s) with (on_join_room sock roomId cb s).
    rewrite on_join_room_server.
    destruct (JsMap.get roomId (rooms s)) as [room0|] eqn:Hg0; [|done].
    intros k room. simpl. rewrite members_set_rooms, members_joined.
    destruct (decide (k = roomId)) as [->|Hne].
    + rewrite JsMapFacts.get_set_eq. intros [= <-]. simpl.
      specialize (Hinv _ _ Hg0). set_solver.
    + rewrite JsMapFacts.get_set_ne by done. apply Hinv.
  - change (handle _ s) with (handleLeaveRoom sock now roomId s).
    destruct (handleLeaveRoom_cases sock now roomId s)
      as [[_ ->]|[(room0 & Hg0 & _ & _ & ->)|(room0 & Hg0 & _ & ->)]]; [done|..];
      intros k room; simpl.
    + rewrite members_set_rooms. destruct (decide (k = roomId)) as [->|Hne].
      * by rewrite JsMapFacts.get_delete_eq.
      * rewrite JsMapFacts.get_delete_ne by done. apply Hinv.
    + rewrite members_left, members_set_rooms.
      destruct (decide (k = roomId)) as [->|Hne].
      * rewrite JsMapFacts.get_set_eq. intros [= <-]. simpl.
        specialize (Hinv _ _ Hg0). set_solver.
      * rewrite JsMapFacts.get_set_ne by done. apply Hinv.
  - unfold handle; simpl.
    unfold on_listener_request_connection, mbind, Handler_bind, rooms_get, gets; simpl.
    destruct (JsMap.get a (rooms s)); [|done]. by destruct (decide _).
  - unfold handle; simpl.
    unfold on_check_stream_status, mbind, Handler_bind, rooms_get, gets; simpl.
    destruct (JsMap.get a (rooms s)); [|done]. by destruct (decide _).
  - unfold handle; simpl. by destruct b.
  - rewrite handle_disconnect. intros k room' Hg.
    destruct (scan_transport sock now (JsMap.keys (rooms s)) (closed sock s)
                (in_no_group_closed sock s)) as [Ha _].
    unfold members at 1. rewrite Ha. fold (members k (closed sock s)).
    rewrite members_closed.
    rewrite scan_get in Hg by apply Hok.
    change (rooms (closed sock s)) with (rooms s) in Hg.
    destruct (decide (k ∈ JsMap.keys (rooms s))) as [Hin|Hin].
    + destruct (JsMap.get k (rooms s)) as [room|] eqn:Hk; [|done]. simpl in Hg.
      apply after_leave_listeners in Hg. specialize (Hinv _ _ Hk). set_solver.
    + apply JsMapFacts.get_None_keys in Hin. congruence.
Qed.

Lemma store_ok_handle t s : store_ok (rooms s) → store_ok (rooms (server (handle t s))).
Proof.
  intros Hok. pose proof (handle_store t s) as Hrtc.
  induction Hrtc as [|m1 m2 m3 H12 _ IH]; [done|]. apply IH. by eapply store_ok_step.
Qed.

Lemma listeners_joined_run t0 ts : listeners_joined (server (run ts (boot t0))).
Proof.
  assert (∀ s, store_ok (rooms s) → listeners_joined s →
               listeners_joined (server (run ts s))) as Hgen.
  { induction ts as [|t ts IH]; intros s Hok Hinv; [done|].
    rewrite run_cons. simpl.
    pose proof (listeners_joined_handle t s Hok Hinv) as Hinv'.
    pose proof (store_ok_handle t s Hok) as Hok'.
    destruct (completion (handle t s)); simpl; [by apply IH|done]. }
  apply Hgen; [apply store_ok_boot|].
  intros k room Hg. apply JsMapFacts.get_Some_values in Hg.
  unfold JsMap.values in Hg. simpl in Hg. rewrite !elem_of_cons, elem_of_nil in Hg.
  destruct Hg as [->|[->|[->|[->|[]]]]]; simpl; set_solver.
Qed.

(** ** Host departure *)

Lemma occurrences_absent x l : x ∉ l → occurrences x l = 0.
Proof.
  unfold occurrences. induction l as [|y l IH]; [done|].
  intros [Hne Hl]%not_elem_of_cons. rewrite filter_cons_False by done. by apply IH.
Qed.

Lemma occurrences_NoDup x l : NoDup l → x ∈ l → occurrences x l = 1.
Proof.
  induction l as [|y l IH]; [by intros _ ?%elem_of_nil|].
  intros [Hy Hnd]%NoDup_cons Hin. unfold occurrences in *.
  destruct (decide (y = x)) as [->|Hne].
  - rewrite filter_cons_True by done. simpl. f_equal. by apply occurrences_absent.
  - rewrite filter_cons_False by done. apply IH; [done|].
    apply elem_of_cons in Hin as [->|]; done.
Qed.

Lemma occurrences_elements x (X : gset string) :
  x ∈ X → occurrences x (elements X) = 1.
Proof.
  intros Hx. apply occurrences_NoDup; [apply NoDup_elements|by apply elem_of_elements].
Qed.

Lemma notices_via_app g x outs outs' :
  notices_via g x (outs ++ outs') = notices_via g x outs + notices_via g x outs'.
Proof. apply sum_list_with_app. Qed.

Lemma members_visit_ne p now k s g :
  g ≠ k → members g (server (visit p now k s)) = members g s.
Proof.
  intros Hne.
  destruct (visit_cases p now k s) as [[-> _]|[-> _]]; [done|].
  destruct (handleLeaveRoom_cases p now k s)
    as [[_ ->]|[(room & _ & _ & _ & ->)|(room & _ & _ & ->)]]; simpl; [done..|].
  rewrite members_left, members_set_rooms. by rewrite decide_False.
Qed.

Lemma visit_notices p now k s x R :
  notices_via R x (outputs (visit p now k s)) =
    if decide (k = R) then notice_due p x R s else 0.
Proof.
  unfold notice_due.
  destruct (visit_cases p now k s) as [[-> Hno]|[-> (room & Hg & Hc)]].
  - simpl. destruct (decide (k = R)) as [->|]; [|done].
    destruct (JsMap.get R (rooms s)) as [room|]; [|done].
    destruct (Hno room eq_refl) as [Hh _].
    destruct (Room.isDemo room); [done|]. by rewrite decide_False.
  - destruct (handleLeaveRoom_cases p now k s)
      as [[Hn _]|[(room' & Hg' & Hd & Hh & ->)|(room' & Hg' & Hd & ->)]];
      [congruence|..]; assert (room' = room) as -> by congruence.
    + unfold notices_via; simpl. destruct (decide (k = R)) as [->|Hne].
      * rewrite Hg, Hd, (decide_True _ _ Hh), bool_decide_eq_true_2 by done.
        rewrite Tauto.if_same. lia.
      * rewrite bool_decide_eq_false_2 by done. by rewrite Tauto.if_same.
    + unfold notices_via; simpl. rewrite !Tauto.if_same.
      destruct (decide (k = R)) as [->|Hne]; [|done]. rewrite Hg.
      destruct Hd as [->|Hne]; [done|].
      destruct (Room.isDemo room); [done|]. by rewrite decide_False.
Qed.

Lemma scan_notices p now ks s x R :
  NoDup ks →
  notices_via R x (outputs (scan p now ks s)) =
    if decide (R ∈ ks) then notice_due p x R s else 0.
Proof.
  revert s. induction ks as [|k ks IH]; intros s Hnd; [done|].
  apply NoDup_cons in Hnd as [Hk Hnd].
  rewrite scan_cons_outputs, notices_via_app, visit_notices, (IH _ Hnd).
  destruct (decide (k = R)) as [->|Hne].
  - rewrite (decide_False _ _ Hk). rewrite decide_True by by left. lia.
  - destruct (decide (R ∈ ks)) as [Hin|Hin].
    + rewrite decide_True by by right. unfold notice_due.
      rewrite visit_get, decide_False by done.
      by rewrite members_visit_ne.
    + rewrite decide_False; [done|]. rewrite elem_of_cons. naive_solver.
Qed.

Lemma values_get {V} (m : list (string * V)) v :
  NoDup (JsMap.keys m) → v ∈ JsMap.values m → ∃ k, JsMap.get k m = Some v.
Proof.
  unfold JsMap.keys, JsMap.values. induction m as [|[k0 v0] m IH]; simpl.
  - by intros _ ?%elem_of_nil.
  - intros [Hk Hnd]%NoDup_cons [->|Hin]%elem_of_cons.
    + exists k0. by rewrite decide_True.
    + destruct (IH Hnd Hin) as [k Hg]. exists k.
      rewrite decide_False; [done|]. intros ->.
      by apply JsMapFacts.get_Some_keys in Hg.
Qed.

Lemma room_gone_intro R s :
  store_ok (rooms s) → JsMap.get R (rooms s) = None → room_gone R s.
Proof.
  intros [Hnd _ Hid] Hg. split_and!; [done| |].
  - intros info Hin <-. unfold list_rooms in Hin.
    apply list_elem_of_fmap in Hin as (room & -> & Hin).
    destruct (values_get _ _ Hnd Hin) as [k Hk].
    rewrite <- (Hid _ _ Hk) in Hk. simpl in Hg. congruence.
  - intros Z. by apply on_join_room_absent.
Qed.

Lemma absent_step R sock mint allow m m' :
  store_step sock mint allow m m' →
  (∀ k, mint k → k ≠ R) →
  JsMap.get R m = None → JsMap.get R m' = None.
Proof.
  intros Hstep Hmint Hg.
  destruct Hstep as [now name m Hm|k room m _ Hk|k room m Hk|k room m Hk _ _].
  - rewrite JsMapFacts.get_set_ne; [done|]. intros Heq. by apply (Hmint _ Hm).
  - rewrite JsMapFacts.get_set_ne; [done|]. congruence.
  - rewrite JsMapFacts.get_set_ne; [done|]. congruence.
  - rewrite JsMapFacts.get_delete_ne; [done|]. congruence.
Qed.

Lemma absent_stays R ts s :
  allocates R ts = false →
  JsMap.get R (rooms s) = None →
  JsMap.get R (rooms (server (run ts s))) = None.
Proof.
  revert s. induction ts as [|t ts IH]; intros s Hal Hg; [done|].
  simpl in Hal. apply orb_false_iff in Hal as [Ht Hal].
  assert (JsMap.get R (rooms (server (handle t s))) = None) as Hg'.
  { pose proof (handle_store t s) as Hrtc.
    assert (∀ k, mints t k → k ≠ R) as Hmint.
    { intros k [(name & cb & Hev) ->]. rewrite Hev in Ht.
      by apply bool_decide_eq_false_1 in Ht. }
    induction Hrtc as [|m1 m2 m3 H12 _ IH']; [done|].
    apply IH'. by eapply absent_step. }
  rewrite run_cons. simpl. destruct (completion (handle t s)); simpl; [by apply IH|done].
Qed.

Lemma store_ok_run_from ts s : store_ok (rooms s) → store_ok (rooms (server (run ts s))).
Proof.
  apply (run_store_invariant store_ok).
  intros sock mint allow m m'. apply store_ok_step.
Qed.

(** C3, as stated, fails in its last part: not every later [join_room] on
    the id of a destroyed room is refused.  The host of ["room-000005"]
    disconnects and the room is removed; a room created a thousand seconds
    later gets the same id, and a join on that id then succeeds. *)
Lemma join_after_destroy_cex :
  (∃ room, JsMap.get "room-000005"
             (rooms (server (run (take 4 host_leaves_id_returns) (boot T0)))) = Some room
           ∧ Room.hostId room = "X")
  ∧ JsMap.get "room-000005"
      (rooms (server (run (take 5 host_leaves_id_returns) (boot T0)))) = None
  ∧ completion (run host_leaves_id_returns (boot T0)) = Normal ()
  ∧ (∃ info,
       outputs (on_join_room "W" "room-000005" true
                  (server (run (take 8 host_leaves_id_returns) (boot T0)))) !! 1
         = Some (Acked "W" (join_ok info))
       ∧ info_id info = "room-000005"
       ∧ info_hostId info = "Z").
Proof.
  split_and!.
  - eexists. split; by vm_compute.
  - by vm_compute.
  - by vm_compute.
  - eexists. split; [by vm_compute|]. by split.
Qed.

(** C3, amended.  Take any state reached from startup, a room [R] in it and
    its host [X], not the system sentinel.  When [X] leaves [R] or
    disconnects, the turn completes; every listener of [R], and every socket
    joined to the group of [R], other than [X] itself is sent exactly one
    system chat notice (system flag set, sender ['SYSTEM']) for [R]; on
    [leave-room], which touches no other room, that is the only system
    notice anyone in the group is sent.  [R] is then out of the store:
    [list_rooms] omits it and [join_room] on its id gets the failure
    acknowledgment, and this stays so through all later turns until a
    [create-room] generates the id again. *)
Theorem host_departure_destroys_room
    (t0 : N) (ts : list Turn) (X R : string) (room : Room.t) (now : N) (ev : ClientEvent) :
  let s := server (run ts (boot t0)) in
  X ≠ SYSTEM →
  JsMap.get R (rooms s) = Some room →
  Room.hostId room = X →
  ev = leave_room R ∨ ev = disconnect →
  let r := handle (mkTurn X now ev) s in
  completion r = Normal ()
  ∧ (∀ x, x ∈ Room.listeners room → x ≠ X → notices_via R x (outputs r) = 1)
  ∧ (∀ x, x ∈ members R s → x ≠ X → notices_via R x (outputs r) = 1)
  ∧ (ev = leave_room R → ∀ x, x ∈ members R s → notices x (outputs r) = 1)
  ∧ room_gone R (server r)
  ∧ (∀ ts', allocates R ts' = false → room_gone R (server (run ts' (server r)))).
Proof.
  intros s HX Hg Hh Hev r.
  pose proof (store_ok_run t0 ts) as Hok. fold s in Hok.
  pose proof (listeners_joined_run t0 ts R room Hg) as Hsub. fold s in Hsub.
  assert (Room.isDemo room = false) as Hd.
  { destruct (Room.isDemo room) eqn:Hd; [|done].
    destruct HX. rewrite <- Hh. by eapply (ok_demo _ Hok). }
  assert (store_ok (rooms (server r))) as Hok' by apply store_ok_handle, Hok.
  assert (completion r = Normal ()
          ∧ (∀ x, x ∈ members R s → x ≠ X → notices_via R x (outputs r) = 1)
          ∧ (ev = leave_room R → ∀ x, x ∈ members R s → notices x (outputs r) = 1)
          ∧ JsMap.get R (rooms (server r)) = None) as (Hc & Hn & Hl & Hgone).
  { subst r. destruct Hev as [->| ->].
    - change (handle _ s) with (handleLeaveRoom X now R s).
      rewrite (handleLeaveRoom_destroy _ _ _ _ _ Hg Hd Hh). simpl.
      split_and!; [done| | |apply JsMapFacts.get_delete_eq].
      + intros x Hx _. unfold notices_via; simpl.
        rewrite bool_decide_eq_true_2, Tauto.if_same by done.
        rewrite occurrences_elements by done. lia.
      + intros _ x Hx. unfold notices; simpl.
        rewrite occurrences_elements by done. lia.
    - rewrite handle_disconnect. split_and!.
      + apply scan_completes.
      + intros x Hx Hne. rewrite scan_notices by apply Hok.
        rewrite decide_True by by eapply JsMapFacts.get_Some_keys.
        unfold notice_due. change (rooms (closed X s)) with (rooms s).
        rewrite Hg, Hd, (decide_True _ _ Hh), members_closed.
        apply occurrences_elements. set_solver.
      + done.
      + rewrite scan_get by apply Hok.
        rewrite decide_True by by eapply JsMapFacts.get_Some_keys.
        change (rooms (closed X s)) with (rooms s). rewrite Hg. simpl.
        unfold after_leave. rewrite decide_True by by left.
        by rewrite Hd, decide_True. }
  split_and!; [done| |done|done|by apply room_gone_intro|].
  - intros x Hx Hne. apply Hn; [|done]. by apply Hsub.
  - intros ts' Hal. apply room_gone_intro; [by apply store_ok_run_from|].
    by apply absent_stays.
Qed.

Lemma host_departure_destroys_room_witness :
  notices_via "room-4" "Y"
    (outputs (handle (mkTurn "X" 7 disconnect) (server (run room_with_listener (boot 0))))) = 1
  ∧ notices "Y"
      (outputs (handle (mkTurn "X" 7 (leave_room "room-4"))
                       (server (run room_with_listener (boot 0))))) = 1
  ∧ room_gone "room-4"
      (server (run [mkTurn "Z" 8 connection; mkTurn "Z" 9 (join_room "room-4" true)]
                   (server (handle (mkTurn "X" 7 disconnect)
                                   (server (run room_with_listener (boot 0))))))).
Proof.
  assert (JsMap.get "room-4" (rooms (server (run room_with_listener (boot 0))))
          = Some (Room.mk "room-4" "Test" None "X" {["Y"]} 4 "active" false)) as Hg
    by by vm_compute.
  assert ("X" ≠ SYSTEM) as HX by (unfold SYSTEM; discriminate).
  assert ("Y" ∈ members "room-4" (server (run room_with_listener (boot 0)))) as HY
    by (apply (bool_decide_unpack _); by vm_compute).
  split_and!.
  - destruct (host_departure_destroys_room 0 room_with_listener "X" "room-4" _ 7 disconnect
                HX Hg eq_refl (or_intror eq_refl)) as (_ & Hl & _).
    apply Hl; [|discriminate]. simpl. by apply elem_of_singleton.
  - destruct (host_departure_destroys_room 0 room_with_listener "X" "room-4" _ 7
                (leave_room "room-4") HX Hg eq_refl (or_introl eq_refl))
      as (_ & _ & _ & Hl & _).
    by apply Hl.
  - destruct (host_departure_destroys_room 0 room_with_listener "X" "room-4" _ 7 disconnect
                HX Hg eq_refl (or_intror eq_refl)) as (_ & _ & _ & _ & _ & Hlater).
    by apply Hlater.
Defined.

(** ** Room identifiers *)











(** * Further properties of the handlers *)

(** ** More about the map *)

Lemma delete_absent {V} k (m : list (string * V)) :
  JsMap.get k m = None → JsMap.delete k m = m.
Proof.
  induction m as [|[k0 v0] m IH]; simpl; [done|].
  destruct (decide (k = k0)); [done|]. intros Hg. f_equal. by apply IH.
Qed.

Lemma delete_set_absent {V} k v (m : list (string * V)) :
  JsMap.get k m = None → JsMap.delete k (JsMap.set k v m) = m.
Proof.
  induction m as [|[k0 v0] m IH]; simpl.
  - by rewrite decide_True.
  - destruct (decide (k = k0)) as [->|Hne]; [done|]. simpl.
    rewrite decide_False by done. intros Hg. f_equal. by apply IH.
Qed.

Lemma set_set {V} k v v' (m : list (string * V)) :
  JsMap.set k v (JsMap.set k v' m) = JsMap.set k v m.
Proof.
  induction m as [|[k0 v0] m IH]; simpl.
  - by rewrite decide_True.
  - destruct (decide (k = k0)) as [->|Hne]; simpl.
    + by rewrite decide_True.
    + rewrite decide_False by done. by f_equal.
Qed.

Lemma values_set_absent {V} k v (m : list (string * V)) :
  JsMap.get k m = None → JsMap.values (JsMap.set k v m) = JsMap.values m ++ [v].
Proof.
  unfold JsMap.values. induction m as [|[k0 v0] m IH]; simpl; [done|].
  destruct (decide (k = k0)); [done|]. intros Hg. simpl. f_equal. by apply IH.
Qed.

Lemma length_set_present {V} k v (m : list (string * V)) :
  is_Some (JsMap.get k m) → length (JsMap.set k v m) = length m.
Proof.
  induction m as [|[k0 v0] m IH]; simpl; [by intros [? ?]|].
  destruct (decide (k = k0)); [done|]. intros Hs. simpl. f_equal. by apply IH.
Qed.

(** ** create-room *)

Lemma on_create_room_run socket now name s :
  on_create_room socket now name true s =
    mkRun (Normal ()) (after_create socket now name s)
      [ Acked socket (created (created_room socket now name));
        lobby_update (after_create socket now name s) ].
Proof. done. Qed.

(** X1. [create-room] with its callback always completes.  The new room is
    stored under the generated id with the sender as host, no listeners,
    status [active] and no demo flag; no other id is touched; the sender is
    joined to the room's group; the acknowledgment carries the new room; and
    the last thing emitted is the room list of the resulting state, which
    contains the new room with a listener count of zero. *)
Theorem create_room_registers (requester : string) (now : N) (name : option string) (s : Server) :
  let r := on_create_room requester now name true s in
  let R := roomId_at now in
  let newRoom := created_room requester now name in
  completion r = Normal ()
  ∧ JsMap.get R (rooms (server r)) = Some newRoom
  ∧ (∀ k, k ≠ R → JsMap.get k (rooms (server r)) = JsMap.get k (rooms s))
  ∧ requester ∈ members R (server r)
  ∧ outputs r = [Acked requester (created newRoom); lobby_update (server r)]
  ∧ snapshot newRoom ∈ list_rooms (server r)
  ∧ Room.id newRoom = R ∧ Room.hostId newRoom = requester
  ∧ Room.listeners newRoom = ∅ ∧ Room.isDemo newRoom = false
  ∧ Room.status newRoom = "active"
  ∧ listenerCount (snapshot newRoom) = 0.
Proof.
  intros r R newRoom. subst r. rewrite on_create_room_run. simpl.
  split_and!; try done.
  - apply JsMapFacts.get_set_eq.
  - intros k Hk. by apply JsMapFacts.get_set_ne.
  - unfold after_create. rewrite members_joined, decide_True by done. set_solver.
  - unfold list_rooms. apply list_elem_of_fmap. exists newRoom. split; [done|].
    apply (JsMapFacts.get_Some_values R). apply JsMapFacts.get_set_eq.
Qed.

(** X2. Where the new room lands in the room list.  When the generated id is
    not in the store the room list grows by the new room at its end; when
    the id is already taken the new room replaces the stored one where it
    stands, the list keeps its length and its order of ids, and the
    listeners of the replaced room are gone from the store. *)
Theorem create_room_position (requester : string) (now : N) (name : option string)
    (callback : bool) (s : Server) :
  let s' := server (on_create_room requester now name callback s) in
  let R := roomId_at now in
  (JsMap.get R (rooms s) = None →
     list_rooms s' = list_rooms s ++ [snapshot (created_room requester now name)]
     ∧ JsMap.keys (rooms s') = JsMap.keys (rooms s) ++ [R])
  ∧ (∀ old, JsMap.get R (rooms s) = Some old →
       JsMap.keys (rooms s') = JsMap.keys (rooms s)
       ∧ length (list_rooms s') = length (list_rooms s)
       ∧ ∃ room, JsMap.get R (rooms s') = Some room
                 ∧ Room.listeners room = ∅ ∧ Room.hostId room = requester).
Proof.
  intros s' R. subst s' R. rewrite on_create_room_server. simpl. split.
  - intros Hg. split.
    + unfold list_rooms. simpl. rewrite values_set_absent by done. by rewrite fmap_app.
    + by apply JsMapFacts.keys_set_absent.
  - intros old Hg. split_and!.
    + apply JsMapFacts.keys_set_present. by rewrite Hg.
    + unfold list_rooms, JsMap.values. simpl. rewrite !length_fmap.
      apply length_set_present. by rewrite Hg.
    + eexists. split; [apply JsMapFacts.get_set_eq|done].
Qed.

Lemma create_room_position_witness :
  list_rooms (server (on_create_room "X" 4 None true (boot 0)))
    = list_rooms (boot 0) ++ [snapshot (created_room "X" 4 None)]
  ∧ JsMap.keys (rooms (server (on_create_room "Y" 4 None true
                                 (server (on_create_room "X" 4 None true (boot 0))))))
    = JsMap.keys (rooms (server (on_create_room "X" 4 None true (boot 0)))).
Proof.
  split.
  - apply (proj1 (create_room_position "X" 4 None true (boot 0))). by vm_compute.
  - eapply (proj2 (create_room_position "Y" 4 None true
                     (server (on_create_room "X" 4 None true (boot 0))))).
    by vm_compute.
Defined.

(** X3. Creating a room under an id that was free and then having its host
    leave it puts the room store back exactly as it was. *)
Theorem create_then_host_leaves (requester : string) (now now' : N) (name : option string)
    (s : Server) :
  JsMap.get (roomId_at now) (rooms s) = None →
  let s1 := server (on_create_room requester now name true s) in
  let r := handleLeaveRoom requester now' (roomId_at now) s1 in
  completion r = Normal () ∧ rooms (server r) = rooms s.
Proof.
  intros Hg s1 r. subst r s1. rewrite on_create_room_server.
  rewrite (handleLeaveRoom_destroy _ _ _ (created_room requester now name));
    [|apply JsMapFacts.get_set_eq|done..].
  split; [done|]. by apply delete_set_absent.
Qed.

Lemma create_then_host_leaves_witness :
  rooms (server (handleLeaveRoom "X" 5 (roomId_at 4)
                   (server (on_create_room "X" 4 None true (boot 0)))))
  = rooms (boot 0).
Proof.
  apply (create_then_host_leaves "X" 4 5 None (boot 0)). by vm_compute.
Defined.

(** ** join-room and leave-room together *)

Lemma leave_enter x room : x ∉ Room.listeners room → leave x (enter x room) = room.
Proof.
  intros Hx. destruct room as [i n u h l c st d]. unfold leave, enter, Room.with_listeners.
  simpl in *. f_equal. set_solver.
Qed.

(** X4. A participant who joins a room it was not listening to, and is not
    the host of (or any demo room), and then leaves it again, leaves the
    room store exactly as it was before the join; the room's group has the
    members it had, less the participant. *)
Theorem join_then_leave (requester roomId : string) (now : N) (room : Room.t) (s : Server) :
  JsMap.get roomId (rooms s) = Some room →
  requester ∉ Room.listeners room →
  Room.isDemo room = true ∨ Room.hostId room ≠ requester →
  let s1 := server (on_join_room requester roomId true s) in
  let r := handleLeaveRoom requester now roomId s1 in
  completion r = Normal ()
  ∧ rooms (server r) = rooms s
  ∧ members roomId (server r) = members roomId s ∖ {[requester]}
  ∧ (∀ g, g ≠ roomId → members g (server r) = members g s).
Proof.
  intros Hg Hx Hc s1 r. subst r s1. rewrite on_join_room_server, Hg.
  rewrite (handleLeaveRoom_listener _ _ _ (enter requester room));
    [|apply JsMapFacts.get_set_eq|done].
  cbn [completion server]. split_and!; [done|..].
  - simpl. rewrite set_set, (leave_enter _ _ Hx). by apply JsMapFacts.set_same.
  - rewrite members_left, decide_True by done.
    rewrite !members_set_rooms, members_joined, decide_True by done. set_solver.
  - intros g Hne. rewrite members_left, decide_False by done.
    rewrite !members_set_rooms, members_joined, decide_False by done. done.
Qed.

Lemma join_then_leave_witness :
  rooms (server (handleLeaveRoom "Y" 5 "demo-lofi"
                   (server (on_join_room "Y" "demo-lofi" true (boot 0)))))
  = rooms (boot 0).
Proof.
  refine (proj1 (proj2 (join_then_leave "Y" "demo-lofi" 5
            (Room.mk "demo-lofi" "Lofi Girl Radio"
               (Some "https://play.streamafrica.net/lofiradio")
               SYSTEM ∅ 0 "active" true) (boot 0) _ _ _))).
  - reflexivity.
  - simpl. set_solver.
  - by left.
Defined.

(** X5. When a listener leaves (any room it does not host, or a demo room)
    the turn completes, the room stays in the store at its place with the
    same host and the listener set less the leaver, no other room changes,
    [user-left] with the leaver's id goes to the members of the room's group
    other than the leaver, and the lobby is sent the new room list. *)
Theorem listener_leaves (requester roomId : string) (now : N) (room : Room.t) (s : Server) :
  JsMap.get roomId (rooms s) = Some room →
  Room.isDemo room = true ∨ Room.hostId room ≠ requester →
  let r := handleLeaveRoom requester now roomId s in
  completion r = Normal ()
  ∧ JsMap.get roomId (rooms (server r)) = Some (leave requester room)
  ∧ Room.hostId (leave requester room) = Room.hostId room
  ∧ Room.listeners (leave requester room) = Room.listeners room ∖ {[requester]}
  ∧ (∀ k, k ≠ roomId → JsMap.get k (rooms (server r)) = JsMap.get k (rooms s))
  ∧ JsMap.keys (rooms (server r)) = JsMap.keys (rooms s)
  ∧ outputs r =
      [ Sent (io_to (Some roomId)) (elements (members roomId s ∖ {[requester]}))
             (user_left requester);
        lobby_update (server r) ]
  ∧ requester ∉ elements (members roomId s ∖ {[requester]}).
Proof.
  intros Hg Hc r. subst r. rewrite (handleLeaveRoom_listener _ _ _ _ _ Hg Hc).
  cbn [completion server outputs]. split_and!; try done.
  - apply JsMapFacts.get_set_eq.
  - intros k Hk. by apply JsMapFacts.get_set_ne.
  - apply JsMapFacts.keys_set_present. by rewrite Hg.
  - by rewrite members_left, decide_True, members_set_rooms.
  - rewrite elem_of_elements. set_solver.
Qed.

Lemma listener_leaves_witness :
  outputs (handleLeaveRoom "Y" 8 "room-4" (server (run room_with_listener (boot 0)))) =
    [ Sent (io_to (Some "room-4")) ["X"] (user_left "Y");
      lobby_update (server (handleLeaveRoom "Y" 8 "room-4"
                              (server (run room_with_listener (boot 0))))) ].
Proof.
  destruct (listener_leaves "Y" "room-4" 8
              (Room.mk "room-4" "Test" None "X" {["Y"]} 4 "active" false)
              (server (run room_with_listener (boot 0))))
    as (_ & _ & _ & _ & _ & _ & Hout & _).
  - by vm_compute.
  - right. simpl. discriminate.
  - rewrite Hout. by vm_compute.
Defined.

(** ** What a missing callback leaves behind *)

(** X6. A [create-room] or [join-room] without callback throws only when it
    reaches the call of the callback.  By then [create-room] has stored the
    room and joined the sender to its group exactly as with a callback, and
    nothing has been emitted; [join-room] on a stored room has added the
    sender as with a callback and has emitted [user-joined] to the host's
    group, but neither the acknowledgment nor the lobby update follows; on
    an id with no room nothing has changed and nothing was emitted. *)
Theorem missing_callback_partial_effects (requester : string) (now : N) (s : Server) :
  (∀ name,
     let r := on_create_room requester now name false s in
     (∃ e, completion r = Throw e)
     ∧ server r = server (on_create_room requester now name true s)
     ∧ outputs r = [])
  ∧ (∀ roomId room,
       JsMap.get roomId (rooms s) = Some room →
       let r := on_join_room requester roomId false s in
       (∃ e, completion r = Throw e)
       ∧ server r = server (on_join_room requester roomId true s)
       ∧ outputs r =
           [ Sent (io_to (Some (Room.hostId room)))
                  (elements (members (Room.hostId room) (server r)))
                  (user_joined requester) ])
  ∧ (∀ roomId,
       JsMap.get roomId (rooms s) = None →
       let r := on_join_room requester roomId false s in
       (∃ e, completion r = Throw e) ∧ server r = s ∧ outputs r = []).
Proof.
  split_and!.
  - intros name. simpl. split_and!; [by eexists|done..].
  - intros roomId room Hg r. subst r.
    unfold on_join_room, mbind, Handler_bind, rooms_get, gets; simpl. rewrite Hg. simpl.
    split_and!; [by eexists|done..].
  - intros roomId Hg r. subst r.
    unfold on_join_room, mbind, Handler_bind, rooms_get, gets; simpl. rewrite Hg. simpl.
    split_and!; [by eexists|done..].
Qed.

Lemma missing_callback_partial_effects_witness :
  outputs (on_join_room "Y" "room-4" false (server (run room_with_listener (boot 0))))
    = [ Sent (io_to (Some "X")) ["X"] (user_joined "Y") ]
  ∧ server (on_join_room "Y" "room-404" false (boot 0)) = boot 0.
Proof.
  destruct (missing_callback_partial_effects "Y" 0 (server (run room_with_listener (boot 0))))
    as (_ & Hjoin & _).
  destruct (missing_callback_partial_effects "Y" 0 (boot 0)) as (_ & _ & Habsent).
  split.
  - destruct (Hjoin "room-4" (Room.mk "room-4" "Test" None "X" {["Y"]} 4 "active" false))
      as (_ & _ & Hout); [by vm_compute|].
    rewrite Hout. by vm_compute.
  - by apply Habsent.
Defined.

(** ** The relaying handlers *)

Lemma handle_relay_server (t : Turn) (s : Server) :
  is_relay (event t) = true → server (handle t s) = s.
Proof.
  destruct t as [sock now e]. unfold handle; simpl.
  destruct e as [| |name cb|roomId cb|roomId|[sg|]|[a|]|[a|]|[a|]|[[a b]|]|[[a b]|]|];
    simpl; try done; intros _.
  - unfold on_listener_request_connection, mbind, Handler_bind, rooms_get, gets; simpl.
    destruct (JsMap.get a (rooms s)); [|done]. by destruct (decide _).
  - unfold on_check_stream_status, mbind, Handler_bind, rooms_get, gets; simpl.
    destruct (JsMap.get a (rooms s)); [|done]. by destruct (decide _).
  - by destruct b.
Qed.

(** X7. The six relaying events ([webrtc-signal], [host-start-stream],
    [listener-request-connection], [check-stream-status],
    [stream-status-reply], [send-message]) never change the server state:
    not the room store, not the group membership, not the set of
    connections, whether the handler completes or throws; and each emits at
    most one message. *)
Theorem relay_keeps_state (t : Turn) (s : Server) :
  is_relay (event t) = true →
  server (handle t s) = s ∧ (length (outputs (handle t s)) ≤ 1)%nat.
Proof.
  intros Hr. split; [by apply handle_relay_server|].
  destruct t as [sock now e]. unfold handle; simpl.
  destruct e as [| |name cb|roomId cb|roomId|[sg|]|[a|]|[a|]|[a|]|[[a b]|]|[[a b]|]|];
    simpl in *; try done; try lia.
  - unfold on_listener_request_connection, mbind, Handler_bind, rooms_get, gets; simpl.
    destruct (JsMap.get a (rooms s)); simpl; [|lia]. destruct (decide _); simpl; lia.
  - unfold on_check_stream_status, mbind, Handler_bind, rooms_get, gets; simpl.
    destruct (JsMap.get a (rooms s)); simpl; [|lia]. destruct (decide _); simpl; lia.
  - destruct b; simpl; lia.
Qed.

Lemma relay_keeps_state_witness :
  server (handle (mkTurn "Y" 9 (send_message (Some ("room-4", "hi"))))
                 (server (run room_with_listener (boot 0))))
  = server (run room_with_listener (boot 0)).
Proof. by apply (relay_keeps_state (mkTurn "Y" 9 (send_message (Some ("room-4", "hi"))))). Defined.

(** ** System notices *)

Lemma after_leave_fields p room room' :
  after_leave p room = Some room' →
  Room.hostId room' = Room.hostId room ∧ Room.isDemo room' = Room.isDemo room.
Proof.
  unfold after_leave. destruct (decide _).
  - destruct (Room.isDemo room) eqn:Hd.
    + by intros [= <-].
    + destruct (decide _); [done|]. by intros [= <-].
  - by intros [= <-].
Qed.

(** [room] is a non-demo room stored under [R] and hosted by [p]. *)
Lemma handleLeaveRoom_notice p now k s tg rec ev :
  Sent tg rec ev ∈ outputs (handleLeaveRoom p now k s) →
  is_system_notice ev = true →
  ∃ room, JsMap.get k (rooms s) = Some room
          ∧ Room.hostId room = p ∧ Room.isDemo room = false.
Proof.
  destruct (handleLeaveRoom_cases p now k s)
    as [[_ ->]|[(room & Hg & Hd & Hh & ->)|(room & _ & _ & ->)]]; cbn [outputs].
  - by intros ?%elem_of_nil.
  - intros _ _. by exists room.
  - rewrite !elem_of_cons, elem_of_nil. unfold lobby_update.
    intros [Heq|[Heq|[]]]; simplify_eq; done.
Qed.

Lemma scan_notice p now ks s tg rec ev :
  Sent tg rec ev ∈ outputs (scan p now ks s) →
  is_system_notice ev = true →
  ∃ R room, JsMap.get R (rooms s) = Some room
            ∧ Room.hostId room = p ∧ Room.isDemo room = false.
Proof.
  revert s. induction ks as [|k ks IH]; intros s.
  - rewrite scan_nil. by intros ?%elem_of_nil.
  - rewrite scan_cons_outputs, elem_of_app. intros [Hin|Hin] Hsys.
    + destruct (visit_cases p now k s) as [[Hv _]|[Hv _]]; rewrite Hv in Hin.
      * by apply elem_of_nil in Hin.
      * exists k. apply (handleLeaveRoom_notice _ _ _ _ _ _ _ Hin Hsys).
    + destruct (IH _ Hin Hsys) as (R & room' & Hg & Hh & Hd).
      rewrite visit_get in Hg. destruct (decide (R = k)) as [->|Hne].
      * destruct (JsMap.get k (rooms s)) as [room|] eqn:Hk; [|done]. simpl in Hg.
        apply after_leave_fields in Hg as [Hh' Hd'].
        exists k, room. split_and!; congruence.
      * by exists R, room'.
Qed.

(** X8. System chat notices cannot be caused by anything but a host's
    departure: whenever a turn emits a message with the system flag set and
    sender ['SYSTEM'], the turn is a [leave-room] or a disconnect, and its
    sender was the host of a non-demo room in the store.  In particular no
    [send-message], whatever its text, produces one. *)
Theorem system_notice_means_host_left (t : Turn) (s : Server) tg rec ev :
  Sent tg rec ev ∈ outputs (handle t s) →
  is_system_notice ev = true →
  (event t = disconnect ∨ ∃ R, event t = leave_room R)
  ∧ ∃ R room, JsMap.get R (rooms s) = Some room
              ∧ Room.hostId room = socket t ∧ Room.isDemo room = false.
Proof.
  destruct t as [sock now e].
  destruct e as [| |name cb|roomId cb|roomId|[sg|]|[a|]|[a|]|[a|]|[[a b]|]|[[a b]|]|].
  - by intros ?%elem_of_nil.
  - unfold handle; simpl. rewrite elem_of_cons, elem_of_nil.
    intros [Heq|[]]; by simplify_eq.
  - unfold handle; simpl. destruct cb; simpl.
    + rewrite !elem_of_cons, elem_of_nil. intros [Heq|[Heq|[]]]; by simplify_eq.
    + by intros ?%elem_of_nil.
  - unfold handle; simpl.
    unfold on_join_room, mbind, Handler_bind, rooms_get, gets; simpl.
    destruct (JsMap.get roomId (rooms s)); destruct cb; simpl;
      rewrite ?elem_of_cons, ?elem_of_nil; intros Hin; intuition; by simplify_eq.
  - intros Hin Hsys. split; [right; by exists roomId|].
    exists roomId. apply (handleLeaveRoom_notice _ _ _ _ _ _ _ Hin Hsys).
  - unfold handle; simpl. rewrite elem_of_cons, elem_of_nil.
    intros [Heq|[]]; by simplify_eq.
  - by intros ?%elem_of_nil.
  - unfold handle; simpl. rewrite elem_of_cons, elem_of_nil.
    intros [Heq|[]]; by simplify_eq.
  - by intros ?%elem_of_nil.
  - unfold handle; simpl.
    unfold on_listener_request_connection, mbind, Handler_bind, rooms_get, gets; simpl.
    destruct (JsMap.get a (rooms s)); simpl; [|by intros ?%elem_of_nil].
    destruct (decide _); simpl; [by intros ?%elem_of_nil|].
    rewrite elem_of_cons, elem_of_nil. intros [Heq|[]]; by simplify_eq.
  - by intros ?%elem_of_nil.
  - unfold handle; simpl.
    unfold on_check_stream_status, mbind, Handler_bind, rooms_get, gets; simpl.
    destruct (JsMap.get a (rooms s)); simpl; [|by intros ?%elem_of_nil].
    destruct (decide _); simpl; [by intros ?%elem_of_nil|].
    rewrite elem_of_cons, elem_of_nil. intros [Heq|[]]; by simplify_eq.
  - by intros ?%elem_of_nil.
  - unfold handle; simpl. destruct b; simpl; [|by intros ?%elem_of_nil].
    rewrite elem_of_cons, elem_of_nil. intros [Heq|[]]; by simplify_eq.
  - by intros ?%elem_of_nil.
  - unfold handle; simpl. rewrite elem_of_cons, elem_of_nil.
    intros [Heq|[]]; by simplify_eq.
  - by intros ?%elem_of_nil.
  - rewrite handle_disconnect. intros Hin Hsys. split; [by left|].
    by apply (scan_notice _ _ _ _ _ _ _ Hin Hsys).
Qed.

Lemma system_notice_means_host_left_witness :
  ∃ R room, JsMap.get R (rooms (server (run room_with_listener (boot 0)))) = Some room
            ∧ Room.hostId room = "X" ∧ Room.isDemo room = false.
Proof.
  refine (proj2 (system_notice_means_host_left (mkTurn "X" 7 disconnect)
            (server (run room_with_listener (boot 0)))
            (io_to (Some "room-4")) ["Y"] (new_message (sys_destroy 7)) _ _)).
  - replace (outputs _) with
      [ Sent (io_to (Some "room-4")) ["Y"] (new_message (sys_destroy 7));
        lobby_update (server (handle (mkTurn "X" 7 disconnect)
                                (server (run room_with_listener (boot 0))))) ]
      by by vm_compute.
    apply list_elem_of_here.
  - reflexivity.
Defined.

(** ** Lobby updates *)

Lemma handleLeaveRoom_tail p now k s :
  let r := handleLeaveRoom p now k s in
  (server r = s ∧ outputs r = [])
  ∨ ∃ pre, outputs r = pre ++ [lobby_update (server r)].
Proof.
  destruct (handleLeaveRoom_cases p now k s)
    as [[_ ->]|[(room & _ & _ & _ & ->)|(room & _ & _ & ->)]]; cbn.
  - by left.
  - right. by eexists [_].
  - right. by eexists [_].
Qed.

Lemma scan_tail p now ks s :
  let r := scan p now ks s in
  (server r = s ∧ outputs r = [])
  ∨ ∃ pre, outputs r = pre ++ [lobby_update (server r)].
Proof.
  revert s. induction ks as [|k ks IH]; intros s; [by left|].
  cbv zeta. rewrite scan_cons_server, scan_cons_outputs.
  destruct (IH (server (visit p now k s))) as [[Hs Ho]|[pre Ho]].
  - rewrite Hs, Ho, app_nil_r.
    destruct (visit_cases p now k s) as [[-> _]|[-> _]]; [by left|].
    apply handleLeaveRoom_tail.
  - right. exists (outputs (visit p now k s) ++ pre). by rewrite Ho, app_assoc.
Qed.

(** X9. The lobby is never left with a stale list: whenever a turn completes
    and has changed the room store, the last message it emits is the room
    list of the resulting state, addressed to the lobby group. *)
Theorem store_change_ends_with_lobby_update (t : Turn) (s : Server) :
  completion (handle t s) = Normal () →
  rooms (server (handle t s)) ≠ rooms s →
  ∃ pre, outputs (handle t s) = pre ++ [lobby_update (server (handle t s))].
Proof.
  destruct (is_relay (event t)) eqn:Hrel.
  { intros _ Hch. by rewrite handle_relay_server in Hch. }
  destruct t as [sock now e].
  destruct e as [| |name cb|roomId cb|roomId|[sg|]|[a|]|[a|]|[a|]|[[a b]|]|[[a b]|]|];
    try done; clear Hrel.
  - change (handle _ s) with (on_create_room sock now name cb s).
    destruct cb; [|done]. intros _ _. rewrite on_create_room_run. by eexists [_].
  - change (handle _ s) with (on_join_room sock roomId cb s).
    destruct (JsMap.get roomId (rooms s)) as [room|] eqn:Hg.
    + destruct cb.
      * intros _ _. rewrite (on_join_room_present _ _ _ _ Hg). by eexists [_; _].
      * unfold on_join_room, mbind, Handler_bind, rooms_get, gets; simpl. by rewrite Hg.
    + intros _. by rewrite on_join_room_server, Hg.
  - change (handle _ s) with (handleLeaveRoom sock now roomId s). intros _ Hch.
    destruct (handleLeaveRoom_tail sock now roomId s) as [[Hs _]|Hpre]; [|done].
    by rewrite Hs in Hch.
  - rewrite handle_disconnect. intros _ Hch.
    destruct (scan_tail sock now (JsMap.keys (rooms s)) (closed sock s))
      as [[Hs _]|Hpre]; [|done].
    by rewrite Hs in Hch.
Qed.

Lemma store_change_ends_with_lobby_update_witness :
  ∃ pre, outputs (handle (mkTurn "X" 7 disconnect) (server (run room_with_listener (boot 0))))
         = pre ++ [lobby_update (server (handle (mkTurn "X" 7 disconnect)
                                           (server (run room_with_listener (boot 0)))))].
Proof.
  apply (store_change_ends_with_lobby_update (mkTurn "X" 7 disconnect)).
  - by vm_compute.
  - intros Heq. apply (f_equal length) in Heq. by vm_compute in Heq.
Defined.

(** ** Invariants of the server state along a run *)

Lemma run_server_invariant (P : Server → Prop) (ok : Turn → Server → bool) :
  (∀ t s, store_ok (rooms s) → ok t s = true → P s → P (server (handle t s))) →
  ∀ ts s, store_ok (rooms s) → all_turns ok ts s = true → P s → P (server (run ts s)).
Proof.
  intros Hstep ts. induction ts as [|t ts IH]; intros s Hok Hall HP; [done|].
  simpl in Hall. apply andb_true_iff in Hall as [Ht Hall].
  pose proof (Hstep t s Hok Ht HP) as HP'.
  pose proof (store_ok_handle t s Hok) as Hok'.
  rewrite run_cons. simpl. destruct (completion (handle t s)); simpl; [by apply IH|done].
Qed.

Lemma scan_server p now s :
  store_ok (rooms s) →
  let s' := server (handle (mkTurn p now disconnect) s) in
  (∀ k, JsMap.get k (rooms s') = JsMap.get k (rooms s) ≫= after_leave p)
  ∧ adapter s' = adapter (closed p s)
  ∧ sockets s' = sockets s ∖ {[p]}.
Proof.
  intros Hok s'. subst s'. rewrite handle_disconnect.
  destruct (scan_transport p now (JsMap.keys (rooms s)) (closed p s)
              (in_no_group_closed p s)) as [Ha Hs].
  split_and!; [|done..].
  intros k. rewrite scan_get by apply Hok.
  change (rooms (closed p s)) with (rooms s).
  destruct (decide (k ∈ JsMap.keys (rooms s))) as [Hin|Hin]; [done|].
  apply JsMapFacts.get_None_keys in Hin. by rewrite Hin.
Qed.

Lemma participants_connected_handle t s :
  store_ok (rooms s) → sender_connected t s = true →
  participants_connected s → participants_connected (server (handle t s)).
Proof.
  intros Hok Hsend Hinv.
  destruct (is_relay (event t)) eqn:Hrel; [by rewrite handle_relay_server|].
  destruct t as [sock now e].
  destruct e as [| |name cb|roomId cb|roomId|[sg|]|[a|]|[a|]|[a|]|[[a b]|]|[[a b]|]|];
    try done; clear Hrel.
  - intros k room Hg. destruct (Hinv k room Hg) as [Hh Hl].
    unfold handle; simpl. split; [intros Hd; specialize (Hh Hd)|]; set_solver.
  - apply bool_decide_eq_true_1 in Hsend. simpl in Hsend.
    change (handle _ s) with (on_create_room sock now name cb s).
    rewrite on_create_room_server. intros k room. simpl.
    destruct (decide (k = roomId_at now)) as [->|Hne].
    + rewrite JsMapFacts.get_set_eq. intros [= <-]. simpl. split; [done|set_solver].
    + rewrite JsMapFacts.get_set_ne by done. apply Hinv.
  - apply bool_decide_eq_true_1 in Hsend. simpl in Hsend.
    change (handle _ s) with (on_join_room sock roomId cb s).
    rewrite on_join_room_server.
    destruct (JsMap.get roomId (rooms s)) as [room0|] eqn:Hg0; [|done].
    intros k room. simpl. destruct (decide (k = roomId)) as [->|Hne].
    + rewrite JsMapFacts.get_set_eq. intros [= <-]. simpl.
      destruct (Hinv _ _ Hg0) as [Hh Hl]. split; [done|set_solver].
    + rewrite JsMapFacts.get_set_ne by done. apply Hinv.
  - change (handle _ s) with (handleLeaveRoom sock now roomId s).
    destruct (handleLeaveRoom_cases sock now roomId s)
      as [[_ ->]|[(room0 & Hg0 & _ & _ & ->)|(room0 & Hg0 & _ & ->)]]; [done|..];
      intros k room; simpl.
    + destruct (decide (k = roomId)) as [->|Hne].
      * by rewrite JsMapFacts.get_delete_eq.
      * rewrite JsMapFacts.get_delete_ne by done. apply Hinv.
    + destruct (decide (k = roomId)) as [->|Hne].
      * rewrite JsMapFacts.get_set_eq. intros [= <-]. simpl.
        destruct (Hinv _ _ Hg0) as [Hh Hl]. split; [done|set_solver].
      * rewrite JsMapFacts.get_set_ne by done. apply Hinv.
  - destruct (scan_server sock now s Hok) as (Hget & _ & Hs).
    intros k room' Hg. rewrite Hget in Hg. rewrite Hs.
    destruct (JsMap.get k (rooms s)) as [room|] eqn:Hk; [|done]. simpl in Hg.
    destruct (Hinv _ _ Hk) as [Hh Hl].
    pose proof (after_leave_listeners _ _ _ Hg) as Hsub.
    pose proof (after_leave_fields _ _ _ Hg) as [Hh' Hd']. split.
    + intros Hd. rewrite Hh'. rewrite Hd' in Hd. specialize (Hh Hd).
      apply elem_of_difference. split; [done|]. rewrite elem_of_singleton. intros Heq.
      unfold after_leave in Hg. rewrite decide_True in Hg by by left.
      rewrite Hd in Hg. by rewrite decide_True in Hg.
    + set_solver.
Qed.

(** X10. Every participant the store refers to is a live connection.  Along
    every run from startup in which each [create-room] and [join-room]
    arrives on a connected socket (as socket.io delivers them), the host of
    every non-demo room and every listener of every room is among the
    connected sockets. *)
Theorem participants_are_connected (t0 : N) (ts : list Turn) :
  all_turns sender_connected ts (boot t0) = true →
  ∀ k room, JsMap.get k (rooms (server (run ts (boot t0)))) = Some room →
            (Room.isDemo room = false →
             Room.hostId room ∈ sockets (server (run ts (boot t0))))
            ∧ Room.listeners room ⊆ sockets (server (run ts (boot t0))).
Proof.
  intros Hall.
  apply (run_server_invariant participants_connected sender_connected);
    [apply participants_connected_handle|apply store_ok_boot|done|].
  intros k room Hg. apply JsMapFacts.get_Some_values in Hg.
  unfold JsMap.values in Hg. simpl in Hg. rewrite !elem_of_cons, elem_of_nil in Hg.
  destruct Hg as [->|[->|[->|[->|[]]]]]; simpl; (split; [done|set_solver]).
Qed.

Lemma participants_are_connected_witness :
  all_turns sender_connected connected_scene (boot 0) = true
  ∧ ∃ room, JsMap.get "demo-lofi" (rooms (server (run connected_scene (boot 0)))) = Some room
            ∧ Room.listeners room = {["Y"]}
            ∧ Room.listeners room ⊆ sockets (server (run connected_scene (boot 0))).
Proof.
  split; [by vm_compute|]. eexists. split_and!.
  - by vm_compute.
  - by vm_compute.
  - apply (participants_are_connected 0 connected_scene eq_refl "demo-lofi"). by vm_compute.
Defined.

(** ** Order of the room list *)

Lemma keys_delete_filter {V} k (m : list (string * V)) :
  JsMap.keys (JsMap.delete k m) = filter (λ k', k' ≠ k) (JsMap.keys m).
Proof.
  unfold JsMap.keys. induction m as [|[k0 v0] m IH]; [done|].
  change ((k0, v0) :: m).*1 with (k0 :: m.*1). simpl.
  destruct (decide (k = k0)) as [->|Hne].
  - by rewrite filter_cons_False by (intros ?; done).
  - rewrite filter_cons_True by (intros ->; done).
    change (((k0, v0) :: JsMap.delete k m).*1) with (k0 :: (JsMap.delete k m).*1).
    by f_equal.
Qed.

Lemma filter_all {A} (P : A → Prop) `{∀ x, Decision (P x)} (l : list A) :
  Forall P l → filter P l = l.
Proof.
  induction 1 as [|x l Hx _ IH]; [done|]. rewrite filter_cons_True by done. by f_equal.
Qed.

Lemma get_lookup {V} (m : list (string * V)) i k :
  NoDup (JsMap.keys m) → JsMap.keys m !! i = Some k → JsMap.values m !! i = JsMap.get k m.
Proof.
  unfold JsMap.keys, JsMap.values. revert i.
  induction m as [|[k0 v0] m IH]; intros i; [done|].
  change ((k0, v0) :: m).*1 with (k0 :: m.*1).
  change ((k0, v0) :: m).*2 with (v0 :: m.*2).
  intros [Hk Hnd]%NoDup_cons. destruct i as [|i]; simpl.
  - intros [= ->]. by rewrite decide_True.
  - intros Hi. rewrite decide_False; [by apply IH|].
    intros ->. apply Hk. by eapply list_elem_of_lookup_2.
Qed.

Lemma demo_rooms_first_step t0 sock mint allow m m' :
  store_step sock mint allow m m' → demo_rooms_first t0 m → demo_rooms_first t0 m'.
Proof.
  intros Hstep [Hkept [rest Hkeys]].
  split; [by eapply demo_rooms_kept_step|].
  destruct Hstep as [now name m _|k room m _ Hk|k room m Hk|k room m Hk Hnd _].
  - destruct (JsMap.get (roomId_at now) m) eqn:Hg.
    + exists rest. rewrite JsMapFacts.keys_set_present; [done|by rewrite Hg].
    + exists (rest ++ [roomId_at now]).
      rewrite JsMapFacts.keys_set_absent by done. by rewrite Hkeys, app_assoc.
  - exists rest. rewrite JsMapFacts.keys_set_present; [done|by rewrite Hk].
  - exists rest. rewrite JsMapFacts.keys_set_present; [done|by rewrite Hk].
  - exists (filter (λ k', k' ≠ k) rest).
    rewrite keys_delete_filter, Hkeys, filter_app. f_equal.
    assert (∀ d, d ∈ DEMO_ROOMS t0 → Room.id d ≠ k) as Hne.
    { intros d Hd <-. unfold demo_rooms_kept in Hkept. rewrite Forall_forall in Hkept.
      destruct (Hkept d Hd) as (r & Hg & _ & _ & Hdemo). congruence. }
    apply filter_all, Forall_forall. intros k' (d & -> & Hd)%list_elem_of_fmap.
    by apply Hne.
Qed.

(** X11. The demo rooms are always listed first.  After any sequence of
    turns from startup the first entries of the room list are the demo rooms
    in their startup order, each with every field but the listener count as
    at startup; rooms created later come after them. *)
Theorem demo_rooms_listed_first (t0 : N) (ts : list Turn) (i : nat) (d : Room.t) :
  DEMO_ROOMS t0 !! i = Some d →
  ∃ r, list_rooms (server (run ts (boot t0))) !! i = Some (snapshot r)
       ∧ same_but_listeners d r
       ∧ info_id (snapshot r) = Room.id d
       ∧ info_isDemo (snapshot r) = true.
Proof.
  intros Hi.
  assert (demo_rooms_first t0 (rooms (server (run ts (boot t0))))) as [Hkept [rest Hkeys]].
  { apply (run_store_invariant (demo_rooms_first t0)).
    - intros sock mint allow m m'. apply demo_rooms_first_step.
    - split; [apply demo_rooms_kept_boot|]. by exists []. }
  destruct (store_ok_run t0 ts) as [Hnd _ _].
  unfold demo_rooms_kept in Hkept. rewrite Forall_forall in Hkept.
  destruct (Hkept d) as (r & Hg & Hsame & _ & Hdemo); [by eapply list_elem_of_lookup_2|].
  exists r. split_and!; [|done| |done].
  - unfold list_rooms. rewrite list_lookup_fmap.
    rewrite (get_lookup _ i (Room.id d)); [by rewrite Hg|done|].
    rewrite Hkeys. apply lookup_app_l_Some. by rewrite list_lookup_fmap, Hi.
  - rewrite Hsame. done.
Qed.

Lemma demo_rooms_listed_first_witness :
  ∃ r, list_rooms (server (run connected_scene (boot 0))) !! 3 = Some (snapshot r)
       ∧ info_id (snapshot r) = "demo-lofi".
Proof.
  destruct (demo_rooms_listed_first 0 connected_scene 3
              (Room.mk "demo-lofi" "Lofi Girl Radio"
                 (Some "https://play.streamafrica.net/lofiradio")
                 SYSTEM ∅ 0 "active" true) eq_refl) as (r & Hl & _ & Hid & _).
  by exists r.
Defined.

(** ** Group membership *)

Lemma listener_branch_true sock k s :
  listener_branch sock k s = true ↔
  ∃ room, JsMap.get k (rooms s) = Some room
          ∧ (Room.isDemo room = true ∨ Room.hostId room ≠ sock).
Proof.
  unfold listener_branch. destruct (JsMap.get k (rooms s)) as [room|].
  - rewrite orb_true_iff, negb_true_iff, bool_decide_eq_false. naive_solver.
  - split; [done|]. by intros (? & ? & _).
Qed.

Lemma members_opened x g s :
  members g (opened x s) = if decide (g = x) then {[x]} ∪ members g s else members g s.
Proof.
  unfold members, opened; simpl. destruct (decide (g = x)) as [->|Hne].
  - by rewrite lookup_insert_eq.
  - by rewrite lookup_insert_ne.
Qed.

Lemma members_handleLeaveRoom sock now k s g :
  members g (server (handleLeaveRoom sock now k s)) =
    if bool_decide (k = g) && listener_branch sock k s
    then members g s ∖ {[sock]} else members g s.
Proof.
  destruct (handleLeaveRoom_cases sock now k s)
    as [[Hg ->]|[(room & Hg & Hd & Hh & ->)|(room & Hg & Hc & ->)]]; cbn [server].
  - unfold listener_branch. rewrite Hg. by rewrite andb_false_r.
  - unfold listener_branch.
    rewrite Hg, Hd, (bool_decide_eq_true_2 (Room.hostId room = sock)) by done.
    simpl. by rewrite andb_false_r.
  - assert (listener_branch sock k s = true) as ->
      by (apply listener_branch_true; by exists room).
    rewrite andb_true_r, members_left, members_set_rooms.
    destruct (decide (g = k)) as [->|Hne].
    + by rewrite bool_decide_eq_true_2.
    + rewrite bool_decide_eq_false_2; [done|]. by intros ->.
Qed.

(** What a turn does to the membership of a group: it adds its own socket
    to the one group it joins, removes its own socket from the group it
    leaves, and touches nobody else. *)
Lemma members_handle t s g :
  members g (server (handle t s)) =
    if group_left t s g then members g s ∖ {[socket t]}
    else if decide (group_joined t s = Some g) then {[socket t]} ∪ members g s
    else members g s.
Proof.
  destruct (is_relay (event t)) eqn:Hrel.
  { rewrite handle_relay_server by done.
    destruct t as [sock tm e].
    destruct e; try done; unfold group_left, group_joined; simpl; by rewrite decide_False. }
  destruct t as [sock tm e].
  destruct e as [| |name cb|roomId cb|roomId|[sg|]|[a|]|[a|]|[a|]|[[a b]|]|[[a b]|]|];
    try done; clear Hrel; unfold group_left, group_joined; cbn [event socket now].
  - change (server (handle _ s)) with (opened sock s). rewrite members_opened.
    destruct (decide (g = sock)) as [->|Hne]; [by rewrite decide_True|].
    rewrite decide_False; [done|]. intros ?; by simplify_eq.
  - change (server (handle _ s)) with (joined sock "lobby" s). rewrite members_joined.
    destruct (decide (g = "lobby")) as [->|Hne]; [by rewrite decide_True|].
    rewrite decide_False; [done|]. intros ?; by simplify_eq.
  - change (handle _ s) with (on_create_room sock tm name cb s).
    rewrite on_create_room_server, members_joined, members_set_rooms.
    destruct (decide (g = roomId_at tm)) as [->|Hne]; [by rewrite decide_True|].
    rewrite decide_False; [done|]. intros ?; by simplify_eq.
  - change (handle _ s) with (on_join_room sock roomId cb s).
    rewrite on_join_room_server.
    destruct (JsMap.get roomId (rooms s)) as [room|].
    + rewrite members_set_rooms, members_joined.
      destruct (decide (g = roomId)) as [->|Hne]; [by rewrite decide_True|].
      rewrite decide_False; [done|]. intros ?; by simplify_eq.
    + by rewrite decide_False.
  - change (handle _ s) with (handleLeaveRoom sock tm roomId s).
    rewrite members_handleLeaveRoom.
    destruct (bool_decide (roomId = g) && listener_branch sock roomId s); [done|].
    by rewrite decide_False.
  - rewrite handle_disconnect.
    destruct (scan_transport sock tm (JsMap.keys (rooms s)) (closed sock s)
                (in_no_group_closed sock s)) as [Ha _].
    unfold members at 1. rewrite Ha. apply (members_closed sock g s).
Qed.

(** X12. A turn changes group membership only for the socket it arrives
    on: every other socket is in exactly the groups it was in.  The turn's
    own socket enters no group but the one the turn joins it to (its own on
    connection, the lobby, the room it creates or the stored room it
    joins), and after its disconnect it is in no group at all. *)
Theorem membership_changes_only_for_sender (t : Turn) (s : Server) (g : string) :
  (∀ x, x ≠ socket t → x ∈ members g (server (handle t s)) ↔ x ∈ members g s)
  ∧ (socket t ∈ members g (server (handle t s)) →
       socket t ∈ members g s ∨ group_joined t s = Some g)
  ∧ (event t = disconnect → socket t ∉ members g (server (handle t s))).
Proof.
  rewrite members_handle. split_and!.
  - intros x Hx. destruct (group_left t s g); [set_solver|].
    destruct (decide _); set_solver.
  - destruct (group_left t s g); [set_solver|].
    destruct (decide _); [by right|by left].
  - intros Hev. unfold group_left. rewrite Hev. set_solver.
Qed.

Lemma membership_changes_only_for_sender_witness :
  ("Y" ∈ members "room-4" (server (handle (mkTurn "X" 7 disconnect)
                                     (server (run room_with_listener (boot 0))))))
  ∧ ("X" ∉ members "room-4" (server (handle (mkTurn "X" 7 disconnect)
                                       (server (run room_with_listener (boot 0)))))).
Proof.
  destruct (membership_changes_only_for_sender (mkTurn "X" 7 disconnect)
              (server (run room_with_listener (boot 0))) "room-4") as (Hother & _ & Hgone).
  split.
  - apply (Hother "Y"); [discriminate|]. apply (bool_decide_unpack _). by vm_compute.
  - by apply Hgone.
Defined.

(** ** Who a room's messages reach *)

Lemma host_joined_handle t s :
  store_ok (rooms s) → host_joined s → host_joined (server (handle t s)).
Proof.
  intros Hok Hinv.
  destruct (is_relay (event t)) eqn:Hrel; [by rewrite handle_relay_server|].
  intros k room Hg Hd. rewrite members_handle.
  destruct t as [sock tm e].
  destruct e as [| |name cb|roomId cb|roomId|[sg|]|[a|]|[a|]|[a|]|[[a b]|]|[[a b]|]|];
    try done; clear Hrel; unfold group_left, group_joined; cbn [event socket now].
  - specialize (Hinv k room Hg Hd). destruct (decide _); set_solver.
  - change (server (handle _ s)) with (joined sock "lobby" s) in Hg.
    specialize (Hinv k room Hg Hd). destruct (decide _); set_solver.
  - change (handle _ s) with (on_create_room sock tm name cb s) in Hg.
    rewrite on_create_room_server in Hg. simpl in Hg.
    destruct (decide (k = roomId_at tm)) as [->|Hne].
    + rewrite JsMapFacts.get_set_eq in Hg. injection Hg as <-.
      rewrite decide_True by done. set_solver.
    + rewrite JsMapFacts.get_set_ne in Hg by done. specialize (Hinv k room Hg Hd).
      destruct (decide _); set_solver.
  - change (handle _ s) with (on_join_room sock roomId cb s) in Hg.
    rewrite on_join_room_server in Hg.
    destruct (JsMap.get roomId (rooms s)) as [room0|] eqn:Hg0.
    + simpl in Hg. destruct (decide (k = roomId)) as [->|Hne].
      * rewrite JsMapFacts.get_set_eq in Hg. injection Hg as <-.
        rewrite decide_True by done. specialize (Hinv _ _ Hg0 Hd). set_solver.
      * rewrite JsMapFacts.get_set_ne in Hg by done. specialize (Hinv k room Hg Hd).
        destruct (decide _); set_solver.
    + destruct (decide _) as [?|_]; [done|]. by apply Hinv.
  - change (handle _ s) with (handleLeaveRoom sock tm roomId s) in Hg.
    destruct (handleLeaveRoom_cases sock tm roomId s)
      as [[Hn Hr]|[(room0 & Hg0 & Hd0 & Hh0 & Hr)|(room0 & Hg0 & Hc0 & Hr)]];
      rewrite Hr in Hg; cbn [server] in Hg; simpl in Hg.
    + unfold listener_branch. rewrite Hn, andb_false_r.
      destruct (decide _) as [?|_]; [done|]. by apply Hinv.
    + unfold listener_branch.
      rewrite Hg0, Hd0, (bool_decide_eq_true_2 (Room.hostId room0 = sock)) by done.
      simpl. rewrite andb_false_r. destruct (decide (None = Some k)) as [?|_]; [done|].
      destruct (decide (k = roomId)) as [->|Hne].
      * by rewrite JsMapFacts.get_delete_eq in Hg.
      * rewrite JsMapFacts.get_delete_ne in Hg by done. by apply Hinv.
    + destruct (decide (k = roomId)) as [->|Hne].
      * rewrite JsMapFacts.get_set_eq in Hg. injection Hg as <-. simpl in Hd.
        rewrite bool_decide_eq_true_2 by done.
        assert (listener_branch sock roomId s = true) as ->
          by (apply listener_branch_true; by exists room0).
        simpl. specialize (Hinv _ _ Hg0 Hd).
        destruct Hc0 as [Hc0|Hc0]; [congruence|]. set_solver.
      * rewrite JsMapFacts.get_set_ne in Hg by done.
        rewrite bool_decide_eq_false_2 by done. simpl. by apply Hinv.
  - destruct (scan_server sock tm s Hok) as (Hget & _ & _).
    rewrite Hget in Hg.
    destruct (JsMap.get k (rooms s)) as [room0|] eqn:Hk; [|done]. simpl in Hg.
    pose proof (after_leave_fields _ _ _ Hg) as [Hh' Hd'].
    rewrite Hh'. rewrite Hd' in Hd. specialize (Hinv _ _ Hk Hd).
    apply elem_of_difference. split; [done|]. rewrite elem_of_singleton. intros Heq.
    unfold after_leave in Hg. rewrite decide_True in Hg by by left.
    rewrite Hd in Hg. by rewrite decide_True in Hg.
Qed.

Lemma all_turns_true ts s : all_turns (λ _ _, true) ts s = true.
Proof. revert s. induction ts as [|t ts IH]; intros s; [done|]. simpl. apply IH. Qed.

Lemma host_joined_run t0 ts : host_joined (server (run ts (boot t0))).
Proof.
  apply (run_server_invariant host_joined (λ _ _, true)).
  - intros t s Hok _. by apply host_joined_handle.
  - apply store_ok_boot.
  - apply all_turns_true.
  - intros k room Hg Hd. apply JsMapFacts.get_Some_values in Hg.
    unfold JsMap.values in Hg. simpl in Hg. rewrite !elem_of_cons, elem_of_nil in Hg.
    by destruct Hg as [->|[->|[->|[->|[]]]]].
Qed.

(** X13. Chat fan-out.  In any state reached from startup, a [send-message]
    for a stored room is emitted once, to the room's group, as a
    [new-message] that carries the text unchanged, the sender's id as
    [userId] and no system flag; every listener of the room is among the
    recipients and so is the host of a non-demo room.  The server state is
    unchanged. *)
Theorem chat_reaches_room (t0 : N) (ts : list Turn)
    (sender R text : string) (now : N) (room : Room.t) :
  let s := server (run ts (boot t0)) in
  JsMap.get R (rooms s) = Some room →
  let r := handle (mkTurn sender now (send_message (Some (R, text)))) s in
  ∃ recipients message,
    r = mkRun (Normal ()) s [Sent (io_to (Some R)) recipients (new_message message)]
    ∧ msg_text message = text ∧ msg_userId message = sender
    ∧ msg_system message = false ∧ msg_timestamp message = now
    ∧ (∀ x, x ∈ Room.listeners room → x ∈ recipients)
    ∧ (Room.isDemo room = false → Room.hostId room ∈ recipients).
Proof.
  intros s Hg r. subst r. eexists _, _. split; [reflexivity|]. cbn [recipients_of].
  split_and!; try done.
  - intros x Hx. apply elem_of_elements. by apply (listeners_joined_run t0 ts R room Hg).
  - intros Hd. apply elem_of_elements. by apply (host_joined_run t0 ts R room Hg).
Qed.

Lemma chat_reaches_room_witness :
  ∃ recipients message,
    handle (mkTurn "Y" 9 (send_message (Some ("room-4", "hi"))))
           (server (run room_with_listener (boot 0)))
    = mkRun (Normal ()) (server (run room_with_listener (boot 0)))
            [Sent (io_to (Some "room-4")) recipients (new_message message)]
    ∧ "X" ∈ recipients ∧ "Y" ∈ recipients.
Proof.
  destruct (chat_reaches_room 0 room_with_listener "Y" "room-4" "hi" 9
              (Room.mk "room-4" "Test" None "X" {["Y"]} 4 "active" false))
    as (recipients & message & Hr & _ & _ & _ & _ & Hl & Hh); [by vm_compute|].
  exists recipients, message. split_and!; [done| |].
  - by apply Hh.
  - apply Hl. simpl. by apply elem_of_singleton.
Defined.

(** X14. [host-start-stream] for a stored room goes to every listener of
    the room other than the sender and never back to the sender; nothing
    checks that the sender is the room's host, and the server state is
    unchanged. *)
Theorem host_start_stream_reaches_listeners (t0 : N) (ts : list Turn)
    (sender R : string) (now : N) (room : Room.t) :
  let s := server (run ts (boot t0)) in
  JsMap.get R (rooms s) = Some room →
  let r := handle (mkTurn sender now (host_start_stream_in (Some R))) s in
  ∃ recipients,
    r = mkRun (Normal ()) s [Sent (socket_to sender R) recipients host_start_stream]
    ∧ (∀ x, x ∈ Room.listeners room → x ≠ sender → x ∈ recipients)
    ∧ sender ∉ recipients.
Proof.
  intros s Hg r. subst r. eexists. split; [reflexivity|]. cbn [recipients_of]. split.
  - intros x Hx Hne. apply elem_of_elements.
    pose proof (listeners_joined_run t0 ts R room Hg x Hx). set_solver.
  - rewrite elem_of_elements. set_solver.
Qed.

Lemma host_start_stream_reaches_listeners_witness :
  ∃ recipients,
    handle (mkTurn "X" 9 (host_start_stream_in (Some "room-4")))
           (server (run room_with_listener (boot 0)))
    = mkRun (Normal ()) (server (run room_with_listener (boot 0)))
            [Sent (socket_to "X" "room-4") recipients host_start_stream]
    ∧ "Y" ∈ recipients.
Proof.
  destruct (host_start_stream_reaches_listeners 0 room_with_listener "X" "room-4" 9
              (Room.mk "room-4" "Test" None "X" {["Y"]} 4 "active" false))
    as (recipients & Hr & Hl & _); [by vm_compute|].
  exists recipients. split; [done|].
  apply Hl; [|discriminate]. simpl. by apply elem_of_singleton.
Defined.

(** ** Reserved names *)

Lemma reserved_lobby : reserved "lobby".
Proof. intros now. discriminate. Qed.

Lemma reserved_SYSTEM : reserved SYSTEM.
Proof. intros now. discriminate. Qed.

Lemma reserved_step R sock mint allow m m' :
  reserved R → store_step sock mint allow m m' →
  JsMap.get R m = None → JsMap.get R m' = None.
Proof.
  intros Hres Hstep Hg.
  destruct Hstep as [now name m _|k room m _ Hk|k room m Hk|k room m Hk _ _].
  - rewrite JsMapFacts.get_set_ne; [done|]. intros Heq. by apply (Hres now).
  - rewrite JsMapFacts.get_set_ne; [done|]. congruence.
  - rewrite JsMapFacts.get_set_ne; [done|]. congruence.
  - rewrite JsMapFacts.get_delete_ne; [done|]. congruence.
Qed.

Lemma reserved_handle R t s :
  reserved R → JsMap.get R (rooms s) = None →
  JsMap.get R (rooms (server (handle t s))) = None.
Proof.
  intros Hres Hg. pose proof (handle_store t s) as Hrtc.
  induction Hrtc as [|m1 m2 m3 H12 _ IH]; [done|]. apply IH. by eapply reserved_step.
Qed.

Lemma reserved_run R t0 ts :
  reserved R → JsMap.get R (rooms (boot t0)) = None →
  JsMap.get R (rooms (server (run ts (boot t0)))) = None.
Proof.
  intros Hres Hg.
  apply (run_store_invariant (λ m, JsMap.get R m = None)); [|done].
  intros sock mint allow m m' Hstep. by eapply reserved_step.
Qed.

(** ** The lobby *)

Lemma joined_twice x g s : joined x g (joined x g s) = joined x g s.
Proof.
  destruct s as [m a c]. unfold joined, set_adapter; simpl. f_equal.
  rewrite lookup_insert_eq, insert_insert_eq. simpl. f_equal. set_solver.
Qed.

Lemma lobby_kept L t s :
  not_disconnect_of L t s = true →
  L ∈ members "lobby" s ∧ JsMap.get "lobby" (rooms s) = None →
  L ∈ members "lobby" (server (handle t s))
  ∧ JsMap.get "lobby" (rooms (server (handle t s))) = None.
Proof.
  intros Hok [Hin Hg]. split; [|by apply reserved_handle; [apply reserved_lobby|]].
  rewrite members_handle. unfold group_left, not_disconnect_of in *.
  destruct (event t) eqn:Hev; try (destruct (decide _); set_solver).
  - unfold listener_branch. destruct (bool_decide (roomId = "lobby")) eqn:Hb.
    + apply bool_decide_eq_true_1 in Hb as ->. rewrite Hg. simpl.
      destruct (decide _); set_solver.
    + simpl. destruct (decide _); set_solver.
  - apply bool_decide_eq_true_1 in Hok. set_solver.
Qed.

(** X15. Lobby subscription.  In any state reached from startup, [join-lobby]
    sends the current room list to the sender alone and changes nothing but
    the sender's membership of the lobby group; sending it again changes
    nothing at all; and the subscription lasts through every later turn
    until the subscriber disconnects, so each lobby update in between
    reaches it.  (A [leave-room] naming ["lobby"] does not end it: no room is
    ever stored under that name.) *)
Theorem lobby_subscription_persists (t0 : N) (ts ts' : list Turn) (L : string) :
  let s := server (run ts (boot t0)) in
  let s1 := server (on_join_lobby L s) in
  on_join_lobby L s =
    mkRun (Normal ()) s1 [Sent (to_self L) [L] (room_list (list_rooms s))]
  ∧ rooms s1 = rooms s
  ∧ (∀ g, g ≠ "lobby" → members g s1 = members g s)
  ∧ server (on_join_lobby L s1) = s1
  ∧ (all_turns (not_disconnect_of L) ts' s1 = true →
       L ∈ members "lobby" (server (run ts' s1))
       ∧ L ∈ recipients_of (io_to (Some "lobby")) (server (run ts' s1))).
Proof.
  intros s s1. split_and!; try done.
  - intros g Hne. subst s1.
    change (server (on_join_lobby L s)) with (joined L "lobby" s).
    by rewrite members_joined, decide_False.
  - subst s1. change (server (on_join_lobby L s)) with (joined L "lobby" s).
    change (server (on_join_lobby L (joined L "lobby" s)))
      with (joined L "lobby" (joined L "lobby" s)).
    apply joined_twice.
  - intros Hall.
    assert (L ∈ members "lobby" (server (run ts' s1))
            ∧ JsMap.get "lobby" (rooms (server (run ts' s1))) = None) as [Hin _].
    { apply (run_server_invariant
               (λ s, L ∈ members "lobby" s ∧ JsMap.get "lobby" (rooms s) = None)
               (not_disconnect_of L)); [|apply store_ok_run|done|].
      - intros t s' _. apply lobby_kept.
      - split.
        + subst s1. change (server (on_join_lobby L s)) with (joined L "lobby" s).
          rewrite members_joined, decide_True by done. set_solver.
        + apply (reserved_run "lobby" t0 ts reserved_lobby). reflexivity. }
    split; [done|]. simpl. by apply elem_of_elements.
Qed.

Lemma lobby_subscription_persists_witness :
  "L" ∈ recipients_of (io_to (Some "lobby"))
          (server (run lobby_scene (server (on_join_lobby "L" (server (run [] (boot 0))))))).
Proof.
  destruct (lobby_subscription_persists 0 [] lobby_scene "L") as (_ & _ & _ & _ & Hp).
  apply Hp. by vm_compute.
Defined.

(** ** What a disconnect leaves behind *)

Lemma after_leave_not_host p room :
  Room.hostId room ≠ p → after_leave p room = Some (leave p room).
Proof.
  intros Hh. unfold after_leave.
  destruct (decide (Room.hostId room = p ∨ p ∈ Room.listeners room)) as [Hc|Hc].
  - destruct (Room.isDemo room); [done|]. by rewrite decide_False.
  - rewrite leave_absent; [done|]. tauto.
Qed.

(** X16. Cleanup on disconnect is complete and touches nothing else.  From
    any state reached from startup, after the disconnect of [p] has been
    handled: every room [p] hosted is gone; every other room is still
    stored, in place, exactly as it was except that [p] is out of its
    listener set; [p] is host and listener of no room, joined to no group
    and no longer among the connections; and the turn has thrown nothing. *)
Theorem disconnect_cleans_up (t0 : N) (ts : list Turn) (p : string) (now : N) :
  p ≠ SYSTEM →
  let s := server (run ts (boot t0)) in
  let r := handle (mkTurn p now disconnect) s in
  completion r = Normal ()
  ∧ (∀ k room, JsMap.get k (rooms s) = Some room → Room.hostId room = p →
               JsMap.get k (rooms (server r)) = None)
  ∧ (∀ k room, JsMap.get k (rooms s) = Some room → Room.hostId room ≠ p →
               JsMap.get k (rooms (server r)) = Some (leave p room))
  ∧ (∀ k, JsMap.get k (rooms s) = None → JsMap.get k (rooms (server r)) = None)
  ∧ fully_removed p (rooms (server r))
  ∧ in_no_group p (server r)
  ∧ sockets (server r) = sockets s ∖ {[p]}.
Proof.
  intros Hp s r. pose proof (store_ok_run t0 ts) as Hok. fold s in Hok.
  destruct (scan_server p now s Hok) as (Hget & Ha & Hs). fold r in Hget, Ha, Hs.
  split_and!.
  - subst r. rewrite handle_disconnect. apply scan_completes.
  - intros k room Hk Hh. rewrite Hget, Hk. simpl. unfold after_leave.
    rewrite decide_True by by left.
    destruct (Room.isDemo room) eqn:Hd.
    + destruct Hp. rewrite <- Hh. by eapply (ok_demo _ Hok).
    + by rewrite decide_True.
  - intros k room Hk Hh. rewrite Hget, Hk. simpl. by apply after_leave_not_host.
  - intros k Hk. by rewrite Hget, Hk.
  - intros k room' Hg. rewrite Hget in Hg.
    destruct (JsMap.get k (rooms s)) as [room|] eqn:Hk; [|done]. simpl in Hg.
    apply (after_leave_removed p room); [|done].
    intros Hd Hh. apply Hp. rewrite <- Hh. by eapply (ok_demo _ Hok).
  - intros g. unfold members. rewrite Ha. apply (in_no_group_closed p s).
  - done.
Qed.

Lemma disconnect_cleans_up_witness :
  JsMap.get "room-4" (rooms (server (handle (mkTurn "X" 9 disconnect)
                                       (server (run host_and_guest (boot 0)))))) = None
  ∧ ∃ room, JsMap.get "demo-lofi"
              (rooms (server (handle (mkTurn "Y" 9 disconnect)
                                (server (run host_and_guest (boot 0)))))) = Some room
            ∧ Room.listeners room = {["Y"]} ∖ {["Y"]}.
Proof.
  assert ("X" ≠ SYSTEM) as HX by (unfold SYSTEM; discriminate).
  assert ("Y" ≠ SYSTEM) as HY by (unfold SYSTEM; discriminate).
  destruct (disconnect_cleans_up 0 host_and_guest "X" 9 HX) as (_ & Hhost & _).
  destruct (disconnect_cleans_up 0 host_and_guest "Y" 9 HY) as (_ & _ & Hother & _).
  split.
  - apply (Hhost "room-4" (Room.mk "room-4" "Test" None "X" {["Y"]} 4 "active" false));
      [by vm_compute|done].
  - eexists. split.
    + apply (Hother "demo-lofi"
               (Room.mk "demo-lofi" "Lofi Girl Radio"
                  (Some "https://play.streamafrica.net/lofiradio")
                  SYSTEM {["Y"]} 0 "active" true)); [by vm_compute|].
      simpl. unfold SYSTEM. discriminate.
    + reflexivity.
Defined.

(** ** Messages addressed to the system sentinel *)

Lemma system_group_kept t s :
  not_from SYSTEM t s = true →
  members SYSTEM s = ∅ ∧ JsMap.get SYSTEM (rooms s) = None →
  members SYSTEM (server (handle t s)) = ∅
  ∧ JsMap.get SYSTEM (rooms (server (handle t s))) = None.
Proof.
  intros Hok [Hm Hg]. split; [|by apply reserved_handle; [apply reserved_SYSTEM|]].
  apply bool_decide_eq_true_1 in Hok.
  rewrite members_handle, Hm. destruct (group_left t s SYSTEM); [set_solver|].
  destruct (decide (group_joined t s = Some SYSTEM)) as [Hj|Hj]; [|done].
  exfalso. unfold group_joined in Hj. destruct (event t); try done.
  - by injection Hj.
  - destruct (JsMap.get roomId (rooms s)) eqn:Hr; [|done]. injection Hj as ->. congruence.
Qed.

Lemma system_group_empty t0 ts :
  all_turns (not_from SYSTEM) ts (boot t0) = true →
  members SYSTEM (server (run ts (boot t0))) = ∅
  ∧ JsMap.get SYSTEM (rooms (server (run ts (boot t0)))) = None.
Proof.
  intros Hall.
  apply (run_server_invariant
           (λ s, members SYSTEM s = ∅ ∧ JsMap.get SYSTEM (rooms s) = None)
           (not_from SYSTEM)); [|apply store_ok_boot|done|done].
  intros t s _. apply system_group_kept.
Qed.

(** X17. Nobody is told about listeners of a demo room.  Along every run
    from startup in which no socket is named like the system sentinel, a
    [join-room] on a demo room succeeds and is acknowledged, but its
    [user-joined] is addressed to the group ['SYSTEM'], which has no member,
    so it reaches no one; the same holds for [listener-request-connection]
    and [check-stream-status] on a demo room. *)
Theorem demo_room_notifies_no_one (t0 : N) (ts : list Turn)
    (requester R : string) (now : N) (room : Room.t) :
  all_turns (not_from SYSTEM) ts (boot t0) = true →
  let s := server (run ts (boot t0)) in
  JsMap.get R (rooms s) = Some room →
  Room.isDemo room = true →
  (let r := on_join_room requester R true s in
   outputs r =
     [ Sent (io_to (Some SYSTEM)) [] (user_joined requester);
       Acked requester (join_ok (snapshot (enter requester room)));
       lobby_update (server r) ])
  ∧ handle (mkTurn requester now (listener_request_connection_in (Some R))) s
    = mkRun (Normal ()) s
        [Sent (io_to (Some SYSTEM)) [] (listener_request_connection requester)]
  ∧ handle (mkTurn requester now (check_stream_status_in (Some R))) s
    = mkRun (Normal ()) s
        [Sent (io_to (Some SYSTEM)) [] (check_stream_status requester)].
Proof.
  intros Hall s Hg Hd.
  destruct (system_group_empty t0 ts Hall) as [Hm Hn]. fold s in Hm, Hn.
  assert (Room.hostId room = SYSTEM) as Hh
    by (by eapply (ok_demo _ (store_ok_run t0 ts))).
  assert (R ≠ SYSTEM) as Hne by congruence.
  split_and!.
  - rewrite (on_join_room_present _ _ _ _ Hg). cbn [outputs server]. rewrite Hh.
    rewrite members_set_rooms, members_joined, decide_False, Hm by done.
    by rewrite elements_empty.
  - unfold handle, on_listener_request_connection, mbind, Handler_bind, rooms_get, gets.
    simpl. rewrite Hg, Hh. simpl. by rewrite Hm, elements_empty.
  - unfold handle, on_check_stream_status, mbind, Handler_bind, rooms_get, gets.
    simpl. rewrite Hg, Hh. simpl. by rewrite Hm, elements_empty.
Qed.

Lemma demo_room_notifies_no_one_witness :
  handle (mkTurn "Y" 9 (listener_request_connection_in (Some "demo-lofi")))
         (server (run host_and_guest (boot 0)))
  = mkRun (Normal ()) (server (run host_and_guest (boot 0)))
      [Sent (io_to (Some SYSTEM)) [] (listener_request_connection "Y")].
Proof.
  refine (proj1 (proj2 (demo_room_notifies_no_one 0 host_and_guest "Y" "demo-lofi" 9
            (Room.mk "demo-lofi" "Lofi Girl Radio"
               (Some "https://play.streamafrica.net/lofiradio")
               SYSTEM {["Y"]} 0 "active" true) _ _ _))).
  - by vm_compute.
  - by vm_compute.
  - reflexivity.
Defined.

(** ** A socket's own group *)

Lemma socket_like_roomId now : socket_like (roomId_at now) = false.
Proof. unfold socket_like, roomId_at. by destruct (slice_last 6 (pretty now)). Qed.

Lemma keys_are_room_names_step sock mint allow m m' :
  store_step sock mint allow m m' → keys_are_room_names m → keys_are_room_names m'.
Proof.
  intros Hstep Hinv k0 r0.
  destruct Hstep as [now name m _|k room m _ Hk|k room m Hk|k room m Hk _ _].
  - destruct (decide (k0 = roomId_at now)) as [->|Hne];
      [intros _; apply socket_like_roomId|].
    rewrite JsMapFacts.get_set_ne by done. apply Hinv.
  - destruct (decide (k0 = k)) as [->|Hne]; [intros _; by eapply Hinv|].
    rewrite JsMapFacts.get_set_ne by done. apply Hinv.
  - destruct (decide (k0 = k)) as [->|Hne]; [intros _; by eapply Hinv|].
    rewrite JsMapFacts.get_set_ne by done. apply Hinv.
  - destruct (decide (k0 = k)) as [->|Hne]; [by rewrite JsMapFacts.get_delete_eq|].
    rewrite JsMapFacts.get_delete_ne by done. apply Hinv.
Qed.

Lemma keys_are_room_names_run t0 ts :
  keys_are_room_names (rooms (server (run ts (boot t0)))).
Proof.
  apply (run_store_invariant keys_are_room_names).
  - intros sock mint allow m m'. apply keys_are_room_names_step.
  - intros k room Hg. simpl in Hg.
    repeat (destruct (decide _) as [->|] in Hg; [done|]). done.
Qed.

Lemma sockets_handle t s :
  sockets (server (handle t s)) =
    match event t with
    | connection => {[socket t]} ∪ sockets s
    | disconnect => sockets s ∖ {[socket t]}
    | _ => sockets s
    end.
Proof.
  destruct (is_relay (event t)) eqn:Hrel.
  { rewrite handle_relay_server by done. by destruct (event t). }
  destruct t as [sock tm e].
  destruct e as [| |name cb|roomId cb|roomId|[sg|]|[a|]|[a|]|[a|]|[[a b]|]|[[a b]|]|];
    try done; clear Hrel; cbn [event socket].
  - change (handle _ s) with (on_create_room sock tm name cb s).
    by rewrite on_create_room_server.
  - change (handle _ s) with (on_join_room sock roomId cb s).
    rewrite on_join_room_server. by destruct (JsMap.get roomId (rooms s)).
  - change (handle _ s) with (handleLeaveRoom sock tm roomId s).
    by destruct (handleLeaveRoom_cases sock tm roomId s)
      as [[_ ->]|[(room & _ & _ & _ & ->)|(room & _ & _ & ->)]].
  - rewrite handle_disconnect.
    by destruct (scan_transport sock tm (JsMap.keys (rooms s)) (closed sock s)
                   (in_no_group_closed sock s)) as [_ ->].
Qed.

Lemma own_group_handle x t s :
  socket_like x = true → keys_are_room_names (rooms s) →
  own_group x s → own_group x (server (handle t s)).
Proof.
  intros Hx Hkeys Hown. unfold own_group in *.
  assert (x ≠ "lobby") as Hlobby by (by intros ->).
  assert (∀ tm, x ≠ roomId_at tm) as Hroom.
  { intros tm ->. rewrite socket_like_roomId in Hx. done. }
  assert (JsMap.get x (rooms s) = None) as Hnone.
  { destruct (JsMap.get x (rooms s)) eqn:Hg; [|done]. apply Hkeys in Hg. congruence. }
  rewrite members_handle, sockets_handle, Hown.
  unfold group_left, group_joined, listener_branch.
  destruct (event t) eqn:Hev.
  - destruct (decide (Some (socket t) = Some x)) as [Heq|Hne].
    + injection Heq as Heq. rewrite Heq.
      rewrite (bool_decide_eq_true_2 (x ∈ {[x]} ∪ sockets s)) by set_solver.
      destruct (bool_decide (x ∈ sockets s)); set_solver.
    + assert (socket t ≠ x) by congruence.
      destruct (bool_decide (x ∈ sockets s)) eqn:Hb.
      * apply bool_decide_eq_true_1 in Hb. by rewrite bool_decide_eq_true_2 by set_solver.
      * apply bool_decide_eq_false_1 in Hb. by rewrite bool_decide_eq_false_2 by set_solver.
  - rewrite decide_False; [done|]. intros ?; by simplify_eq.
  - rewrite decide_False; [done|]. intros [= Heq]. by apply (Hroom (now t)).
  - destruct (JsMap.get roomId (rooms s)) eqn:Hg; [|by rewrite decide_False].
    rewrite decide_False; [done|]. intros [= ->]. congruence.
  - destruct (bool_decide (roomId = x)) eqn:Hb; [|by rewrite decide_False].
    apply bool_decide_eq_true_1 in Hb as ->. rewrite Hnone. by rewrite decide_False.
  - by rewrite decide_False.
  - by rewrite decide_False.
  - by rewrite decide_False.
  - by rewrite decide_False.
  - by rewrite decide_False.
  - by rewrite decide_False.
  - destruct (decide (socket t = x)) as [->|Hne].
    + rewrite (bool_decide_eq_false_2 (x ∈ sockets s ∖ {[x]})) by set_solver.
      destruct (bool_decide (x ∈ sockets s)); set_solver.
    + destruct (bool_decide (x ∈ sockets s)) eqn:Hb.
      * apply bool_decide_eq_true_1 in Hb. rewrite bool_decide_eq_true_2 by set_solver.
        set_solver.
      * apply bool_decide_eq_false_1 in Hb. rewrite bool_decide_eq_false_2 by set_solver.
        set_solver.
Qed.

Lemma own_group_run t0 ts x :
  socket_like x = true → own_group x (server (run ts (boot t0))).
Proof.
  intros Hx.
  assert (∀ s, keys_are_room_names (rooms s) → own_group x s →
               own_group x (server (run ts s))) as Hgen.
  { induction ts as [|t ts IH]; intros s Hk Hown; [done|].
    rewrite run_cons. simpl.
    pose proof (own_group_handle x t s Hx Hk Hown) as Hown'.
    assert (keys_are_room_names (rooms (server (handle t s)))) as Hk'.
    { pose proof (handle_store t s) as Hrtc.
      induction Hrtc as [|m1 m2 m3 H12 _ IH']; [done|].
      apply IH'. by eapply keys_are_room_names_step. }
    destruct (completion (handle t s)); simpl; [by apply IH|done]. }
  apply Hgen; [apply (keys_are_room_names_run t0 [])|].
  unfold own_group. simpl. rewrite bool_decide_eq_false_2 by set_solver. done.
Qed.

(** X18. Signalling between participants.  For a target id that is
    socket-like (not the lobby's name and not shaped like a room id), in any
    state reached from startup the group named by the id holds that socket
    alone while it is connected and nobody otherwise.  So a [webrtc-signal]
    to such a target is delivered, unchanged and with the sender's id, to
    the target alone while it is connected, and to no one once it has
    disconnected or if it never connected. *)
Theorem signal_reaches_live_target_only (t0 : N) (ts : list Turn)
    (S target : string) (now : N) (ty pl : option string) :
  socket_like target = true →
  let s := server (run ts (boot t0)) in
  let r := handle (mkTurn S now (webrtc_signal_in (Some (mkSignal ty pl (Some target))))) s in
  members target s = (if bool_decide (target ∈ sockets s) then {[target]} else ∅)
  ∧ r = mkRun (Normal ()) s
          [Sent (io_to (Some target))
                (if bool_decide (target ∈ sockets s) then [target] else [])
                (webrtc_signal ty pl S)].
Proof.
  intros Hx s r. pose proof (own_group_run t0 ts target Hx) as Hown. fold s in Hown.
  split; [done|]. subst r. unfold handle, on_webrtc_signal, emit, tell. simpl.
  rewrite Hown. destruct (bool_decide (target ∈ sockets s));
    by rewrite ?elements_singleton, ?elements_empty.
Qed.

Lemma signal_reaches_live_target_only_witness :
  handle (mkTurn "X" 9 (webrtc_signal_in (Some (mkSignal (Some "offer") (Some "P") (Some "Y")))))
         (server (run host_and_guest (boot 0)))
  = mkRun (Normal ()) (server (run host_and_guest (boot 0)))
      [Sent (io_to (Some "Y")) ["Y"] (webrtc_signal (Some "offer") (Some "P") "X")]
  ∧ handle (mkTurn "X" 9 (webrtc_signal_in (Some (mkSignal (Some "offer") (Some "P") (Some "Q")))))
           (server (run host_and_guest (boot 0)))
    = mkRun (Normal ()) (server (run host_and_guest (boot 0)))
        [Sent (io_to (Some "Q")) [] (webrtc_signal (Some "offer") (Some "P") "X")].
Proof.
  split.
  - destruct (signal_reaches_live_target_only 0 host_and_guest "X" "Y" 9
                (Some "offer") (Some "P") eq_refl) as [_ Hr].
    rewrite Hr. f_equal.
  - destruct (signal_reaches_live_target_only 0 host_and_guest "X" "Q" 9
                (Some "offer") (Some "P") eq_refl) as [_ Hr].
    rewrite Hr. f_equal.
Defined.

Lemma participants_connected_run t0 ts :
  all_turns sender_connected ts (boot t0) = true →
  participants_connected (server (run ts (boot t0))).
Proof.
  intros Hall.
  apply (run_server_invariant participants_connected sender_connected);
    [apply participants_connected_handle|apply store_ok_boot|done|].
  intros k room Hg. apply JsMapFacts.get_Some_values in Hg.
  unfold JsMap.values in Hg. simpl in Hg. rewrite !elem_of_cons, elem_of_nil in Hg.
  destruct Hg as [->|[->|[->|[->|[]]]]]; simpl; (split; [done|set_solver]).
Qed.

(** X19. The host of a user room hears of its listeners.  In a state
    reached from startup by a run in which [create-room] and [join-room]
    arrive on connected sockets, take a stored non-demo room whose host id
    is socket-like and not empty.  Then the [user-joined] of a [join-room],
    the [listener-request-connection] and the [check-stream-status] for that
    room are each delivered to the host and to nobody else, carrying the
    requester's id. *)
Theorem host_is_notified (t0 : N) (ts : list Turn)
    (requester R : string) (now : N) (room : Room.t) :
  all_turns sender_connected ts (boot t0) = true →
  let s := server (run ts (boot t0)) in
  let h := Room.hostId room in
  JsMap.get R (rooms s) = Some room →
  Room.isDemo room = false →
  socket_like h = true → h ≠ "" →
  (let r := handle (mkTurn requester now (join_room R true)) s in
   outputs r =
     [ Sent (io_to (Some h)) [h] (user_joined requester);
       Acked requester (join_ok (snapshot (enter requester room)));
       lobby_update (server r) ])
  ∧ handle (mkTurn requester now (listener_request_connection_in (Some R))) s
    = mkRun (Normal ()) s [Sent (io_to (Some h)) [h] (listener_request_connection requester)]
  ∧ handle (mkTurn requester now (check_stream_status_in (Some R))) s
    = mkRun (Normal ()) s [Sent (io_to (Some h)) [h] (check_stream_status requester)].
Proof.
  intros Hall s h Hg Hd Hlike Hne.
  pose proof (own_group_run t0 ts h Hlike) as Hown. fold s in Hown.
  destruct (participants_connected_run t0 ts Hall R room Hg) as [Hconn _].
  unfold own_group in Hown. rewrite bool_decide_eq_true_2 in Hown by by apply Hconn.
  assert (h ≠ R) as HhR.
  { intros Heq. pose proof (keys_are_room_names_run t0 ts R room Hg) as Hk.
    rewrite <- Heq in Hk. congruence. }
  split_and!.
  - change (handle _ s) with (on_join_room requester R true s).
    rewrite (on_join_room_present _ _ _ _ Hg). cbn [outputs server]. fold h.
    rewrite members_set_rooms, members_joined, decide_False, Hown by done.
    by rewrite elements_singleton.
  - unfold handle, on_listener_request_connection, mbind, Handler_bind, rooms_get, gets.
    simpl. rewrite Hg. fold h. destruct (decide (h = "")) as [?|_]; [done|].
    unfold emit, tell. simpl. by rewrite Hown, elements_singleton.
  - unfold handle, on_check_stream_status, mbind, Handler_bind, rooms_get, gets.
    simpl. rewrite Hg. fold h. destruct (decide (h = "")) as [?|_]; [done|].
    unfold emit, tell. simpl. by rewrite Hown, elements_singleton.
Qed.

Lemma host_is_notified_witness :
  handle (mkTurn "Y" 9 (check_stream_status_in (Some "room-4")))
         (server (run host_and_guest (boot 0)))
  = mkRun (Normal ()) (server (run host_and_guest (boot 0)))
      [Sent (io_to (Some "X")) ["X"] (check_stream_status "Y")].
Proof.
  refine (proj2 (proj2 (host_is_notified 0 host_and_guest "Y" "room-4" 9
            (Room.mk "room-4" "Test" None "X" {["Y"]} 4 "active" false) _ _ _ _ _))).
  - by vm_compute.
  - by vm_compute.
  - reflexivity.
  - reflexivity.
  - done.
Defined.

(** X20. The reply of the stream handshake.  In any state reached from
    startup, a [stream-status-reply] that says the stream is not running
    emits nothing; one that says it is running sends [host-start-stream] to
    the requester it names, and for a socket-like requester id that is the
    requester alone while it is connected and no one otherwise.  Who sends
    the reply is not looked at, and the server state is unchanged. *)
Theorem stream_status_reply_reaches_requester (t0 : N) (ts : list Turn)
    (sender requesterId : string) (now : N) :
  socket_like requesterId = true →
  let s := server (run ts (boot t0)) in
  handle (mkTurn sender now (stream_status_reply (Some (requesterId, false)))) s
    = mkRun (Normal ()) s []
  ∧ handle (mkTurn sender now (stream_status_reply (Some (requesterId, true)))) s
    = mkRun (Normal ()) s
        [Sent (io_to (Some requesterId))
              (if bool_decide (requesterId ∈ sockets s) then [requesterId] else [])
              host_start_stream].
Proof.
  intros Hx s. pose proof (own_group_run t0 ts requesterId Hx) as Hown. fold s in Hown.
  split; [done|]. unfold handle, on_stream_status_reply, emit, tell. simpl.
  rewrite Hown. destruct (bool_decide (requesterId ∈ sockets s));
    by rewrite ?elements_singleton, ?elements_empty.
Qed.

Lemma stream_status_reply_reaches_requester_witness :
  handle (mkTurn "X" 9 (stream_status_reply (Some ("Y", true))))
         (server (run host_and_guest (boot 0)))
  = mkRun (Normal ()) (server (run host_and_guest (boot 0)))
      [Sent (io_to (Some "Y")) ["Y"] host_start_stream].
Proof.
  destruct (stream_status_reply_reaches_requester 0 host_and_guest "X" "Y" 9 eq_refl)
    as [_ Hr].
  rewrite Hr. f_equal.
Defined.

(** * join-room: the acknowledgment and who is told *)

Lemma joined_member x g s : x ∈ members g s → joined x g s = s.
Proof.
  destruct s as [m a c]. unfold members, joined, set_adapter; simpl. intros Hx.
  f_equal. destruct (a !! g) as [G|] eqn:HG; simpl in *; [|set_solver].
  replace ({[x]} ∪ G) with G by set_solver. by apply insert_id.
Qed.

Lemma on_join_room_no_callback_absent socket roomId s :
  JsMap.get roomId (rooms s) = None →
  on_join_room socket roomId false s =
    mkRun (Throw "TypeError: callback is not a function") s [].
Proof.
  intros Hg. unfold on_join_room, mbind, Handler_bind, rooms_get, gets. simpl.
  by rewrite Hg.
Qed.

Lemma on_join_room_no_callback_present socket roomId room s :
  JsMap.get roomId (rooms s) = Some room →
  completion (on_join_room socket roomId false s)
    = Throw "TypeError: callback is not a function"
  ∧ server (on_join_room socket roomId false s)
    = server (on_join_room socket roomId true s).
Proof.
  intros Hg. unfold on_join_room, mbind, Handler_bind, rooms_get, gets. simpl.
  by rewrite Hg.
Qed.

(** In a state reached with connected senders, the group of a socket-like
    host of a stored user room is the host alone, also once the requester
    has been joined to the room's group. *)
Lemma host_group_after_join t0 ts requester R room :
  all_turns sender_connected ts (boot t0) = true →
  JsMap.get R (rooms (server (run ts (boot t0)))) = Some room →
  Room.isDemo room = false →
  socket_like (Room.hostId room) = true →
  members (Room.hostId room) (joined requester R (server (run ts (boot t0))))
    = {[Room.hostId room]}.
Proof.
  intros Hall Hg Hd Hlike.
  pose proof (own_group_run t0 ts _ Hlike) as Hown.
  destruct (participants_connected_run t0 ts Hall R room Hg) as [Hconn _].
  unfold own_group in Hown. rewrite bool_decide_eq_true_2 in Hown by by apply Hconn.
  rewrite members_joined, decide_False; [done|].
  intros Heq. pose proof (keys_are_room_names_run t0 ts R room Hg) as Hk.
  rewrite <- Heq in Hk. congruence.
Qed.

(** In a state reached without a socket named like the sentinel, a stored
    demo room has host ['SYSTEM'], whose group is empty, also once the
    requester has been joined to the room's group. *)
Lemma system_group_after_join t0 ts requester R room :
  all_turns (not_from SYSTEM) ts (boot t0) = true →
  JsMap.get R (rooms (server (run ts (boot t0)))) = Some room →
  Room.isDemo room = true →
  Room.hostId room = SYSTEM
  ∧ members SYSTEM (joined requester R (server (run ts (boot t0)))) = ∅.
Proof.
  intros Hall Hg Hd.
  destruct (system_group_empty t0 ts Hall) as [Hm Hn].
  split; [by eapply (ok_demo _ (store_ok_run t0 ts))|].
  rewrite members_joined, decide_False; [done|]. congruence.
Qed.

Lemma join_outputs_delivered h requester a u :
  delivered h (user_joined requester)
    [Sent (io_to (Some h)) [h] (user_joined requester); Acked requester a; u].
Proof.
  exists (io_to (Some h)), [h]. split; [apply list_elem_of_here|].
  apply list_elem_of_singleton. reflexivity.
Qed.

Lemma join_outputs_not_delivered g requester a s x :
  ¬ delivered x (user_joined requester)
      [Sent (io_to (Some g)) [] (user_joined requester); Acked requester a; lobby_update s].
Proof.
  intros (t & rec & Hin & Hx). unfold lobby_update in Hin.
  rewrite !elem_of_cons, elem_of_nil in Hin.
  destruct Hin as [Heq|[Heq|[Heq|[]]]]; try discriminate Heq.
  injection Heq as _ ->. by apply elem_of_nil in Hx.
Qed.

(** C2, as stated, fails on its last part and on "never crashes".  A
    [join-room] on a demo room, which is an existing room, notifies no one:
    [user-joined] is addressed to the group ['SYSTEM'], which no socket is
    in.  And a [join-room] on an id with no room, sent without the
    acknowledgment callback, throws at the call of the callback. *)
Lemma join_room_host_not_notified_cex :
  let s := server (run fresh_room_scene (boot 0)) in
  let r := on_join_room "X" "demo-lofi" true s in
  (∃ room, JsMap.get "demo-lofi" (rooms s) = Some room ∧ Room.hostId room = SYSTEM)
  ∧ "X" ∈ sockets s
  ∧ completion r = Normal ()
  ∧ (∃ a u, outputs r = [Sent (io_to (Some SYSTEM)) [] (user_joined "X"); Acked "X" a; u])
  ∧ (∀ x, ¬ delivered x (user_joined "X") (outputs r))
  ∧ JsMap.get "room-404" (rooms s) = None
  ∧ completion (on_join_room "X" "room-404" false s)
    = Throw "TypeError: callback is not a function".
Proof.
  intros s r.
  assert (outputs r =
            [ Sent (io_to (Some SYSTEM)) [] (user_joined "X");
              Acked "X" (join_ok (snapshot (enter "X"
                (Room.mk "demo-lofi" "Lofi Girl Radio"
                   (Some "https://play.streamafrica.net/lofiradio")
                   SYSTEM ∅ 0 "active" true))));
              lobby_update (server r) ]) as Hout by by vm_compute.
  split_and!.
  - eexists. split; by vm_compute.
  - apply (bool_decide_unpack _). by vm_compute.
  - by vm_compute.
  - by eexists _, _.
  - intros x. rewrite Hout. apply join_outputs_not_delivered.
  - by vm_compute.
  - by vm_compute.
Qed.

(** C2, amended.  [join-room] on an identifier with no room in the store:
    called with its acknowledgment callback it acknowledges with
    [{success: false}], completes, and leaves the whole server state as it
    was (no room is created); called without one it throws at the call of
    the callback, the state again as it was and nothing emitted.  On an
    existing room, with its callback, it completes, puts the requester in
    the listener set of that room, touches no other room, emits
    [user-joined {userId: requester}] to the group named by the room's host
    id, and acknowledges with a snapshot whose [listenerCount] is the size of
    the listener set after the addition.  Who receives [user-joined], in a
    state reached from startup: for a non-demo room whose host id is
    socket-like, when rooms are created and joined on connected sockets, the
    host and nobody else; for a demo room, when no socket is named
    ['SYSTEM'], no one. *)
Theorem join_room_not_found_or_joined (requester roomId : string) :
  (∀ s, JsMap.get roomId (rooms s) = None →
     on_join_room requester roomId true s =
       mkRun (Normal ()) s
             [Acked requester (join_failed "Room not found or signal lost.")]
     ∧ on_join_room requester roomId false s =
       mkRun (Throw "TypeError: callback is not a function") s [])
  ∧ (∀ s room, JsMap.get roomId (rooms s) = Some room →
       let r := on_join_room requester roomId true s in
       completion r = Normal ()
       ∧ JsMap.get roomId (rooms (server r)) = Some (enter requester room)
       ∧ requester ∈ Room.listeners (enter requester room)
       ∧ (∀ k, k ≠ roomId → JsMap.get k (rooms (server r)) = JsMap.get k (rooms s))
       ∧ JsMap.keys (rooms (server r)) = JsMap.keys (rooms s)
       ∧ outputs r =
           [ Sent (io_to (Some (Room.hostId room)))
                  (elements (members (Room.hostId room) (server r)))
                  (user_joined requester);
             Acked requester (join_ok (snapshot (enter requester room)));
             lobby_update (server r) ]
       ∧ listenerCount (snapshot (enter requester room))
           = size ({[requester]} ∪ Room.listeners room))
  ∧ (∀ t0 ts room,
       let s := server (run ts (boot t0)) in
       let r := on_join_room requester roomId true s in
       let h := Room.hostId room in
       JsMap.get roomId (rooms s) = Some room →
       (Room.isDemo room = false →
        all_turns sender_connected ts (boot t0) = true →
        socket_like h = true →
          outputs r =
            [ Sent (io_to (Some h)) [h] (user_joined requester);
              Acked requester (join_ok (snapshot (enter requester room)));
              lobby_update (server r) ]
          ∧ delivered h (user_joined requester) (outputs r)
          ∧ (∀ x, delivered x (user_joined requester) (outputs r) → x = h))
       ∧ (Room.isDemo room = true →
          all_turns (not_from SYSTEM) ts (boot t0) = true →
          outputs r =
            [ Sent (io_to (Some SYSTEM)) [] (user_joined requester);
              Acked requester (join_ok (snapshot (enter requester room)));
              lobby_update (server r) ]
          ∧ (∀ x, ¬ delivered x (user_joined requester) (outputs r)))).
Proof.
  split_and!.
  - intros s Hg. split;
      [by apply on_join_room_absent|by apply on_join_room_no_callback_absent].
  - intros s room Hg r. subst r. rewrite (on_join_room_present _ _ _ _ Hg). simpl.
    split_and!; try done.
    + apply JsMapFacts.get_set_eq.
    + set_solver.
    + intros k Hk. by apply JsMapFacts.get_set_ne.
    + apply JsMapFacts.keys_set_present. by rewrite Hg.
  - intros t0 ts room s r h Hg. subst r h s.
    rewrite (on_join_room_present _ _ _ _ Hg). cbn [outputs server]. split.
    + intros Hd Hall Hlike.
      rewrite members_set_rooms, (host_group_after_join t0 ts requester roomId room)
        by done.
      rewrite elements_singleton. split_and!; [done|apply join_outputs_delivered|].
      intros x (t & rec & Hin & Hx). unfold lobby_update in Hin.
      rewrite !elem_of_cons, elem_of_nil in Hin.
      destruct Hin as [Heq|[Heq|[Heq|[]]]]; try discriminate Heq.
      injection Heq as _ ->. by apply list_elem_of_singleton in Hx.
    + intros Hd Hall.
      destruct (system_group_after_join t0 ts requester roomId room Hall Hg Hd)
        as [Hh Hm].
      rewrite Hh, members_set_rooms, Hm, elements_empty.
      split; [done|]. intros x. apply join_outputs_not_delivered.
Qed.

Lemma join_room_not_found_or_joined_witness :
  let s := server (run stranger_scene (boot 0)) in
  on_join_room "A" "room-404" true s =
    mkRun (Normal ()) s [Acked "A" (join_failed "Room not found or signal lost.")]
  ∧ delivered "X" (user_joined "A") (outputs (on_join_room "A" "room-4" true s))
  ∧ ¬ delivered "X" (user_joined "A") (outputs (on_join_room "A" "demo-lofi" true s)).
Proof.
  intros s. split_and!.
  - apply (proj1 (join_room_not_found_or_joined "A" "room-404") s). by vm_compute.
  - refine (proj1 (proj2 (proj1
      (proj2 (proj2 (join_room_not_found_or_joined "A" "room-4")) 0%N stranger_scene
         (Room.mk "room-4" "Test" None "X" {["Y"]} 4 "active" false) _) _ _ _))).
    + by vm_compute.
    + reflexivity.
    + by vm_compute.
    + reflexivity.
  - refine (proj2 (proj2
      (proj2 (proj2 (join_room_not_found_or_joined "A" "demo-lofi")) 0%N stranger_scene
         (Room.mk "demo-lofi" "Lofi Girl Radio"
            (Some "https://play.streamafrica.net/lofiradio")
            SYSTEM ∅ 0 "active" true) _) _ _) "X").
    + by vm_compute.
    + reflexivity.
    + by vm_compute.
Defined.

(** C10, as stated, fails on its last part.  ["Y"] is already in the
    listener set of the demo room; its second [join-room] succeeds and
    changes nothing, but the host is not notified again: [user-joined] is
    addressed to the group ['SYSTEM'] and reaches no one. *)
Lemma join_room_again_host_not_notified_cex :
  let s := server (run two_joins (boot 0)) in
  let r := on_join_room "Y" "demo-lofi" true s in
  (∃ room, JsMap.get "demo-lofi" (rooms s) = Some room
           ∧ "Y" ∈ Room.listeners room ∧ Room.hostId room = SYSTEM)
  ∧ completion r = Normal ()
  ∧ server r = s
  ∧ (∃ a, outputs r =
            [Sent (io_to (Some SYSTEM)) [] (user_joined "Y"); Acked "Y" a; lobby_update s])
  ∧ (∀ x, ¬ delivered x (user_joined "Y") (outputs r)).
Proof.
  intros s r.
  assert (outputs r =
            [ Sent (io_to (Some SYSTEM)) [] (user_joined "Y");
              Acked "Y" (join_ok (snapshot (enter "Y"
                (Room.mk "demo-lofi" "Lofi Girl Radio"
                   (Some "https://play.streamafrica.net/lofiradio")
                   SYSTEM ∅ 0 "active" true))));
              lobby_update s ]) as Hout by by vm_compute.
  split_and!.
  - exists (enter "Y" (Room.mk "demo-lofi" "Lofi Girl Radio"
                         (Some "https://play.streamafrica.net/lofiradio")
                         SYSTEM ∅ 0 "active" true)).
    split_and!; [by vm_compute| |reflexivity].
    apply elem_of_union_l, elem_of_singleton. reflexivity.
  - by vm_compute.
  - by vm_compute.
  - by eexists.
  - intros x. rewrite Hout. apply join_outputs_not_delivered.
Qed.

(** C10, amended.  Joining a room one already listens to succeeds again
    (given the acknowledgment callback): the room store is unchanged, the
    acknowledged snapshot carries the same listener count as before, and
    [user-joined {userId: P}] is emitted once more to the group named by
    the room's host id; without the callback the handler throws, the room
    store still unchanged.  In a state reached from startup the whole
    server state is unchanged, and [user-joined] reaches: for a non-demo
    room whose host id is socket-like, when rooms are created and joined on
    connected sockets, the host and nobody else; for a demo room, when no
    socket is named ['SYSTEM'], no one. *)
Theorem join_room_idempotent (requester roomId : string) (room : Room.t) :
  requester ∈ Room.listeners room →
  (∀ s, JsMap.get roomId (rooms s) = Some room →
     let r := on_join_room requester roomId true s in
     completion r = Normal ()
     ∧ rooms (server r) = rooms s
     ∧ JsMap.get roomId (rooms (server r)) = Some room
     ∧ outputs r =
         [ Sent (io_to (Some (Room.hostId room)))
                (elements (members (Room.hostId room) (server r)))
                (user_joined requester);
           Acked requester (join_ok (snapshot room));
           lobby_update (server r) ]
     ∧ listenerCount (snapshot room) = size (Room.listeners room)
     ∧ completion (on_join_room requester roomId false s)
       = Throw "TypeError: callback is not a function"
     ∧ rooms (server (on_join_room requester roomId false s)) = rooms s)
  ∧ (∀ t0 ts,
       let s := server (run ts (boot t0)) in
       let r := on_join_room requester roomId true s in
       let h := Room.hostId room in
       JsMap.get roomId (rooms s) = Some room →
       server r = s
       ∧ (Room.isDemo room = false →
          all_turns sender_connected ts (boot t0) = true →
          socket_like h = true →
            outputs r =
              [ Sent (io_to (Some h)) [h] (user_joined requester);
                Acked requester (join_ok (snapshot room));
                lobby_update s ]
            ∧ delivered h (user_joined requester) (outputs r)
            ∧ (∀ x, delivered x (user_joined requester) (outputs r) → x = h))
       ∧ (Room.isDemo room = true →
          all_turns (not_from SYSTEM) ts (boot t0) = true →
            outputs r =
              [ Sent (io_to (Some SYSTEM)) [] (user_joined requester);
                Acked requester (join_ok (snapshot room));
                lobby_update s ]
            ∧ (∀ x, ¬ delivered x (user_joined requester) (outputs r)))).
Proof.
  intros Hin. split.
  - intros s Hg r. subst r.
    destruct (on_join_room_no_callback_present requester roomId room s Hg) as [Hc Hs].
    rewrite Hc, Hs. clear Hc Hs.
    rewrite (on_join_room_present _ _ _ _ Hg). simpl.
    rewrite (enter_present _ _ Hin).
    assert (JsMap.set roomId room (rooms s) = rooms s) as Hsame
      by by apply JsMapFacts.set_same.
    split_and!; try done.
    apply JsMapFacts.get_set_eq.
  - intros t0 ts s r h Hg. subst r h.
    assert (server (on_join_room requester roomId true s) = s) as Hsame.
    { rewrite (on_join_room_present _ _ _ _ Hg). cbn [server].
      rewrite (enter_present _ _ Hin), joined_member
        by (by apply (listeners_joined_run t0 ts roomId room Hg)).
      destruct s as [m a c]. unfold set_rooms; simpl in *. f_equal.
      by apply JsMapFacts.set_same. }
    split; [done|].
    rewrite (on_join_room_present _ _ _ _ Hg) in *. cbn [outputs server] in *.
    rewrite Hsame. rewrite (enter_present _ _ Hin). subst s. split.
    + intros Hd Hall Hlike.
      pose proof (host_group_after_join t0 ts requester roomId room Hall Hg Hd Hlike)
        as Hm.
      rewrite joined_member in Hm
        by (by apply (listeners_joined_run t0 ts roomId room Hg)).
      rewrite Hm, elements_singleton.
      split_and!; [done|apply join_outputs_delivered|].
      intros x (t & rec & Hin' & Hx). unfold lobby_update in Hin'.
      rewrite !elem_of_cons, elem_of_nil in Hin'.
      destruct Hin' as [Heq|[Heq|[Heq|[]]]]; try discriminate Heq.
      injection Heq as _ ->. by apply list_elem_of_singleton in Hx.
    + intros Hd Hall.
      destruct (system_group_after_join t0 ts requester roomId room Hall Hg Hd)
        as [Hh Hm].
      rewrite joined_member in Hm
        by (by apply (listeners_joined_run t0 ts roomId room Hg)).
      rewrite Hh, Hm, elements_empty.
      split; [done|]. intros x. apply join_outputs_not_delivered.
Qed.

Lemma join_room_idempotent_witness :
  let s := server (run room_with_listener (boot 0)) in
  server (on_join_room "Y" "room-4" true s) = s
  ∧ delivered "X" (user_joined "Y") (outputs (on_join_room "Y" "room-4" true s)).
Proof.
  intros s.
  assert ("Y" ∈ Room.listeners (Room.mk "room-4" "Test" None "X" {["Y"]} 4 "active" false))
    as Hin by (cbn [Room.listeners]; by apply elem_of_singleton_2).
  assert (JsMap.get "room-4" (rooms s)
          = Some (Room.mk "room-4" "Test" None "X" {["Y"]} 4 "active" false))
    as Hg by by vm_compute.
  split.
  - exact (proj1 (proj2 (join_room_idempotent "Y" "room-4" _ Hin) 0%N room_with_listener Hg)).
  - refine (proj1 (proj2 (proj1 (proj2
      (proj2 (join_room_idempotent "Y" "room-4" _ Hin) 0%N room_with_listener Hg))
      _ _ _))).
    + reflexivity.
    + by vm_compute.
    + reflexivity.
Defined.
